(** * check_finance_env.py: the finance environment validator

    Shallow embedding of [scripts/finance/check_finance_env.py]: the alias
    lookup [pick], the tolerant parsers [parse_bool] and [parse_int], the
    endpoint predicate [valid_url] (with the parts of CPython's
    [urllib.parse.urlsplit] that decide [scheme] and [netloc]) and the
    validator [run_checks].

    Modelling conventions.
    - A Python [str] is a [string]; each [ascii] stands for the code point
      0..255 it encodes (Latin-1), so [str.strip], [str.lower] and the
      whitespace class follow Python on that range.  Strings with code
      points above 0xFF are outside the model, and every statement about
      strings is about strings of code points 0..255.
    - A [dict[str, str]] is a [gmap string string]; [env.get(k, "")] is
      [from_option id "" (env !! k)].
    - Code that may raise returns [res A]: [Ok a] or [Raise e], threaded
      with stdpp's monadic notation [x ← m; k]. *)

From Stdlib Require Import ZArith Ascii String Numbers.DecimalString Lia.
From Stdlib Require DecimalFacts DecimalPos.
From stdpp Require Import base list gmap strings.

Open Scope string_scope.
Open Scope nat_scope.

(** ** Exceptions *)

(** The exceptions the script can meet: [ValueError] (with its subclass
    [UnicodeDecodeError]) and [OSError] (from reading the env file). *)
Inductive exn := ValueError | OSError.

Inductive res (A : Type) : Type :=
| Ok (a : A)
| Raise (e : exn).
Arguments Ok {A} a.
Arguments Raise {A} e.

#[global] Instance res_ret : MRet res := fun _ a => Ok a.
#[global] Instance res_bind : MBind res :=
  fun _ _ f m => match m with Ok a => f a | Raise e => Raise e end.

Definition raise {A} : res A := Raise ValueError.

(** ** Python string primitives on Latin-1 code points *)

Definition code (c : ascii) : nat := nat_of_ascii c.

(** [str.isspace] on code points 0..255. *)
Definition py_isspace (c : ascii) : bool :=
  let n := code c in
  ((9 <=? n) && (n <=? 13)) || ((28 <=? n) && (n <=? 32))
  || (n =? 133) || (n =? 160).

Fixpoint py_lstrip_by (p : ascii -> bool) (s : string) : string :=
  match s with
  | EmptyString => EmptyString
  | String c r => if p c then py_lstrip_by p r else s
  end.

Fixpoint str_rev (s : string) : string :=
  match s with
  | EmptyString => EmptyString
  | String c r => str_rev r ++ String c EmptyString
  end.

Definition py_rstrip_by (p : ascii -> bool) (s : string) : string :=
  str_rev (py_lstrip_by p (str_rev s)).

(** [str.strip()] *)
Definition py_strip (s : string) : string :=
  py_rstrip_by py_isspace (py_lstrip_by py_isspace s).

(** [str.lower()] on code points 0..255: A-Z and U+00C0..U+00DE except
    U+00D7 move down by 0x20. *)
Definition py_lower_char (c : ascii) : ascii :=
  let n := code c in
  if ((65 <=? n) && (n <=? 90)) || ((192 <=? n) && (n <=? 222) && negb (n =? 215))
  then ascii_of_nat (n + 32) else c.

Fixpoint py_lower (s : string) : string :=
  match s with
  | EmptyString => EmptyString
  | String c r => String (py_lower_char c) (py_lower r)
  end.

(** Truthiness of a [str] and of an [Optional[str]]. *)
Definition truthy (s : string) : bool := negb (String.eqb s "").

Definition truthy_opt (o : option string) : bool :=
  match o with Some s => truthy s | None => false end.

(** [x or d] for [x : Optional[str]] and a string [d]. *)
Definition py_or (o : option string) (d : string) : string :=
  match o with Some s => if truthy s then s else d | None => d end.

(** [x in {a, b, ...}] for strings. *)
Definition str_in (x : string) (xs : list string) : bool :=
  existsb (String.eqb x) xs.

(** [str(n)] for a Python [int]. *)
Definition py_str_int (n : Z) : string := NilEmpty.string_of_int (Z.to_int n).

(** ** [pick] *)

(** [def pick(env, keys, default=None)]: the first alias whose value,
    stripped, is non-empty. *)
Fixpoint pick (env : gmap string string) (keys : list string)
    (default : option string) : option string :=
  match keys with
  | [] => default
  | key :: keys' =>
      let value := py_strip (from_option id "" (env !! key)) in
      if truthy value then Some value else pick env keys' default
  end.

(** ** [parse_bool] *)

Definition parse_bool (raw : option string) (default : bool) : bool :=
  match raw with
  | None => default
  | Some r =>
      let normalized := py_lower (py_strip r) in
      if str_in normalized ["1"; "true"; "yes"; "on"] then true
      else if str_in normalized ["0"; "false"; "no"; "off"] then false
      else default
  end.

(** ** [parse_int]

    [int(s)] on a [str], base 10: surrounding whitespace, an optional sign,
    then decimal digits with single underscores between digits.  CPython
    refuses more than 4300 digits ([sys.get_int_max_str_digits()] default,
    underscores not counted) with a [ValueError]. *)

Definition is_digit (c : ascii) : bool :=
  (48 <=? code c) && (code c <=? 57).

Definition digit_val (c : ascii) : Z := Z.of_nat (code c - 48).

Definition int_max_str_digits : N := 4300.

(** Digits after a first digit: value so far [acc], digits read [n]. *)
Fixpoint int_digits (s : string) (acc : Z) (n : N) : option (Z * N) :=
  match s with
  | EmptyString => Some (acc, n)
  | String c r =>
      if is_digit c then int_digits r (acc * 10 + digit_val c) (n + 1)
      else if Ascii.eqb c "_" then
        match r with
        | String d r' =>
            if is_digit d then int_digits r' (acc * 10 + digit_val d) (n + 1)
            else None
        | EmptyString => None
        end
      else None
  end.

Definition int_unsigned (s : string) : option Z :=
  match s with
  | String d r =>
      if is_digit d then
        match int_digits r (digit_val d) 1 with
        | Some (v, n) => if (n <=? int_max_str_digits)%N then Some v else None
        | None => None
        end
      else None
  | EmptyString => None
  end.

(** [int(s)]: [None] where Python raises [ValueError]. *)
Definition py_int (s : string) : option Z :=
  match py_strip s with
  | String "-" r => option_map Z.opp (int_unsigned r)
  | String "+" r => int_unsigned r
  | t => int_unsigned t
  end.

(** [def parse_int(raw, default)]: the [except Exception] returns the
    default. *)
Definition parse_int (raw : option string) (default : Z) : Z :=
  match raw with
  | None => default
  | Some r => from_option id default (py_int (py_strip r))
  end.

(** ** String searching and splitting *)

Definition str_contains (c : ascii) (s : string) : bool :=
  existsb (Ascii.eqb c) (list_ascii_of_string s).

Definition str_all (p : ascii -> bool) (s : string) : bool :=
  forallb p (list_ascii_of_string s).

(** [s.partition(c)] when [c] occurs: the text before and after the first
    occurrence. *)
Fixpoint split_first (c : ascii) (s : string) : option (string * string) :=
  match s with
  | EmptyString => None
  | String d r =>
      if Ascii.eqb c d then Some (EmptyString, r)
      else match split_first c r with
           | Some (a, b) => Some (String d a, b)
           | None => None
           end
  end.

(** [s.rpartition(c)] when [c] occurs. *)
Fixpoint split_last (c : ascii) (s : string) : option (string * string) :=
  match s with
  | EmptyString => None
  | String d r =>
      match split_last c r with
      | Some (a, b) => Some (String d a, b)
      | None => if Ascii.eqb c d then Some (EmptyString, r) else None
      end
  end.

(** [s.partition(c)] *)
Definition partition (c : ascii) (s : string) : string * bool * string :=
  match split_first c s with
  | Some (a, b) => (a, true, b)
  | None => (s, false, EmptyString)
  end.

(** [s.split(c)] *)
Fixpoint py_split (c : ascii) (s : string) : list string :=
  match s with
  | EmptyString => [EmptyString]
  | String d r =>
      if Ascii.eqb c d then EmptyString :: py_split c r
      else match py_split c r with
           | w :: ws => String d w :: ws
           | [] => [String d EmptyString]
           end
  end.

Definition starts_with (c : ascii) (s : string) : bool :=
  match s with String d _ => Ascii.eqb c d | EmptyString => false end.

(** [int(h, 16)] on a string of hex digits. *)
Definition is_hex (c : ascii) : bool :=
  is_digit c || ((97 <=? code c) && (code c <=? 102))
  || ((65 <=? code c) && (code c <=? 70)).

Definition hex_val (c : ascii) : Z :=
  if is_digit c then digit_val c
  else if (97 <=? code c) then Z.of_nat (code c - 87) else Z.of_nat (code c - 55).

Definition hex_int (s : string) : Z :=
  fold_left (fun acc c => acc * 16 + hex_val c)%Z (list_ascii_of_string s) 0%Z.

(** ** [ipaddress] (CPython 3.12), as used by [urlsplit] *)

(** [IPv4Address._parse_octet] *)
Definition parse_octet (s : string) : option Z :=
  if negb (truthy s) then None
  else if negb (str_all is_digit s) then None
  else if 3 <? String.length s then None
  else if negb (String.eqb s "0") && starts_with "0" s then None
  else match py_int s with
       | Some v => if (v >? 255)%Z then None else Some v
       | None => None
       end.

(** [IPv4Address(s)._ip]; [None] where the constructor raises. *)
Definition ipv4_int (s : string) : option Z :=
  if str_contains "/" s then None
  else if negb (truthy s) then None
  else
    let octets := py_split "." s in
    if negb (length octets =? 4) then None
    else fold_left (fun acc o =>
           match acc, parse_octet o with
           | Some a, Some v => Some (a * 256 + v)%Z
           | _, _ => None
           end) octets (Some 0%Z).

(** [IPv6Address._parse_hextet] *)
Definition parse_hextet (s : string) : option Z :=
  if negb (str_all is_hex s) then None
  else if 4 <? String.length s then None
  else if negb (truthy s) then None  (* int('', 16) raises *)
  else Some (hex_int s).

Fixpoint hex_digits_rev (fuel : nat) (n : Z) : string :=
  match fuel with
  | O => EmptyString
  | S f =>
      let d := Z.to_nat (n mod 16) in
      let c := ascii_of_nat (if d <? 10 then 48 + d else 87 + d) in
      if (n <? 16)%Z then String c EmptyString
      else String c (hex_digits_rev f (n / 16))
  end.

(** ['%x' % n] for [0 <= n < 2^16]. *)
Definition py_hex (n : Z) : string := str_rev (hex_digits_rev 4 n).

Definition hextets_int (acc : option Z) (ps : list string) : option Z :=
  fold_left (fun acc p =>
    match acc, parse_hextet p with
    | Some a, Some v => Some (Z.lor (Z.shiftl a 16) v)
    | _, _ => None
    end) ps acc.

Definition hextet_count : nat := 8.

(** [IPv6Address._ip_int_from_string] *)
Definition ipv6_int_from_string (ip_str : string) : option Z :=
  if negb (truthy ip_str) then None else
  let parts0 := py_split ":" ip_str in
  if length parts0 <? 3 then None else
  let parts1 :=
    let lastp := List.last parts0 "" in
    if str_contains "." lastp then
      match ipv4_int lastp with
      | Some v =>
          Some (app (removelast parts0)
                [py_hex (Z.land (Z.shiftr v 16) 65535); py_hex (Z.land v 65535)])
      | None => None
      end
    else Some parts0 in
  match parts1 with
  | None => None
  | Some parts =>
    let n := length parts in
    if hextet_count + 1 <? n then None else
    let empties := List.filter (fun i => negb (truthy (nth i parts ""))) (seq 1 (n - 2)) in
    let bounds : option (nat * nat * nat) :=
      match empties with
      | [] =>
          if negb (n =? hextet_count) then None
          else if negb (truthy (nth 0 parts "")) then None
          else if negb (truthy (List.last parts "")) then None
          else Some (n, 0, 0)
      | [skip_index] =>
          let hi := skip_index in
          let lo := n - skip_index - 1 in
          let hi_r := if truthy (nth 0 parts "") then Some hi
                      else if negb (hi - 1 =? 0) then None else Some (hi - 1) in
          let lo_r := if truthy (List.last parts "") then Some lo
                      else if negb (lo - 1 =? 0) then None else Some (lo - 1) in
          match hi_r, lo_r with
          | Some h, Some l =>
              if hextet_count <=? h + l then None
              else Some (h, l, hextet_count - (h + l))
          | _, _ => None
          end
      | _ => None
      end in
    match bounds with
    | None => None
    | Some (hi, lo, skipped) =>
        match hextets_int (Some 0%Z) (firstn hi parts) with
        | Some a =>
            hextets_int (Some (Z.shiftl a (16 * Z.of_nat skipped)))
                        (skipn (n - lo) parts)
        | None => None
        end
    end
  end.

(** [IPv6Address(s)]: [/] refused, then [_split_scope_id]. *)
Definition ipv6_int (s : string) : option Z :=
  if str_contains "/" s then None else
  match partition "%" s with
  | (addr, false, _) => ipv6_int_from_string addr
  | (addr, true, scope_id) =>
      if negb (truthy scope_id) || str_contains "%" scope_id then None
      else ipv6_int_from_string addr
  end.

Inductive ip_addr := IPv4Address (ip : Z) | IPv6Address (ip : Z).

(** [ipaddress.ip_address(s)] *)
Definition ip_address (s : string) : res ip_addr :=
  match ipv4_int s with
  | Some v => Ok (IPv4Address v)
  | None =>
      match ipv6_int s with
      | Some v => Ok (IPv6Address v)
      | None => raise
      end
  end.

(** ** [urllib.parse] (CPython 3.12) *)

Definition is_ascii_alpha (c : ascii) : bool :=
  ((65 <=? code c) && (code c <=? 90)) || ((97 <=? code c) && (code c <=? 122)).

(** [scheme_chars]: ASCII letters, digits and [+-.]. *)
Definition is_scheme_char (c : ascii) : bool :=
  is_ascii_alpha c || is_digit c || str_contains c "+-.".

(** [_WHATWG_C0_CONTROL_OR_SPACE]: code points 0..32. *)
Definition whatwg_c0_control_or_space (c : ascii) : bool := code c <=? 32.

(** [_UNSAFE_URL_BYTES_TO_REMOVE]: tab, CR, LF. *)
Definition unsafe_url_byte (c : ascii) : bool :=
  (code c =? 9) || (code c =? 13) || (code c =? 10).

Definition remove_unsafe (s : string) : string :=
  string_of_list_ascii (filter (fun c => negb (unsafe_url_byte c)) (list_ascii_of_string s)).

(** The scheme step of [urlsplit]: [i = url.find(':')]; when [i > 0],
    [url[0]] is an ASCII letter and [url[:i]] only has scheme characters,
    [scheme, url = url[:i].lower(), url[i+1:]]. *)
Definition split_scheme (url : string) : string * string :=
  match split_first ":" url with
  | Some ((String c0 _) as pre, post) =>
      if is_ascii_alpha c0 && str_all is_scheme_char pre
      then (py_lower pre, post) else (EmptyString, url)
  | _ => (EmptyString, url)
  end.

(** [_splitnetloc(url, 2)] on [url[2:]]: up to the first of [/?#]. *)
Fixpoint splitnetloc (s : string) : string * string :=
  match s with
  | EmptyString => (EmptyString, EmptyString)
  | String c r =>
      if str_contains c "/?#" then (EmptyString, s)
      else let '(a, b) := splitnetloc r in (String c a, b)
  end.

Fixpoint span (p : ascii -> bool) (s : string) : string * string :=
  match s with
  | EmptyString => (EmptyString, EmptyString)
  | String c r => if p c then let '(a, b) := span p r in (String c a, b) else (EmptyString, s)
  end.

(** [re.match(r"\Av[a-fA-F0-9]+\..+\z", hostname)] *)
Definition ipvfuture_match (hostname : string) : bool :=
  match hostname with
  | String "v" r =>
      let '(hexrun, rest) := span is_hex r in
      truthy hexrun &&
      match rest with
      | String "." t => truthy t && negb (str_contains (ascii_of_nat 10) t)
      | _ => false
      end
  | _ => false
  end.

(** [_check_bracketed_host] *)
Definition check_bracketed_host (hostname : string) : res unit :=
  if starts_with "v" hostname then
    if ipvfuture_match hostname then mret tt else raise
  else
    ip ← ip_address hostname;
    match ip with
    | IPv4Address _ => raise
    | IPv6Address _ => mret tt
    end.

(** [_check_bracketed_netloc] *)
Definition check_bracketed_netloc (netloc : string) : res unit :=
  let hostname_and_port :=
    match split_last "@" netloc with Some (_, b) => b | None => netloc end in
  match partition "[" hostname_and_port with
  | (before_bracket, true, bracketed) =>
      if truthy before_bracket then raise else
      let '(hostname, _, port) := partition "]" bracketed in
      if truthy port && negb (starts_with ":" port) then raise
      else check_bracketed_host hostname
  | (_, false, _) =>
      let '(hostname, _, _) := partition ":" hostname_and_port in
      check_bracketed_host hostname
  end.

(** The bracket checks of [urlsplit] on the netloc: unbalanced brackets
    raise "Invalid IPv6 URL", balanced ones go to [_check_bracketed_netloc]. *)
Definition check_netloc_brackets (netloc : string) : res unit :=
  let has_open := str_contains "[" netloc in
  let has_close := str_contains "]" netloc in
  if (has_open && negb has_close) || (has_close && negb has_open) then raise
  else if has_open && has_close then check_bracketed_netloc netloc
  else mret tt.

(** [url[2:]] when [url[:2] == '//']. *)
Definition after_double_slash (url : string) : option string :=
  match url with
  | String a (String b r) => if Ascii.eqb a "/" && Ascii.eqb b "/" then Some r else None
  | _ => None
  end.

(** The netloc step of [urlsplit], under [if url[:2] == '//']. *)
Definition split_netloc_checked (url : string) : res (string * string) :=
  match after_double_slash url with
  | Some r =>
      let '(netloc, rest) := splitnetloc r in
      _ ← check_netloc_brackets netloc;
      mret (netloc, rest)
  | None => mret (EmptyString, url)
  end.

(** [unicodedata.normalize('NFKC', ...)] on code points 0..255, with the
    result as a list of code points.  The table lists the code points that
    NFKC changes (Unicode 14); every other one is its own normal form.  No
    code point of this range has a non-zero combining class and none of the
    results composes with a neighbour, so the normal form of a string is the
    concatenation of the normal forms of its characters. *)
Definition nfkc_latin1_table : list (N * list N) :=
  [(160, [32]); (168, [32; 776]); (170, [97]); (175, [32; 772]);
   (178, [50]); (179, [51]); (180, [32; 769]); (181, [956]);
   (184, [32; 807]); (185, [49]); (186, [111]); (188, [49; 8260; 52]);
   (189, [49; 8260; 50]); (190, [51; 8260; 52])]%N.

Definition nfkc_char (c : ascii) : list N :=
  match List.find (fun e => N.eqb e.1 (N.of_nat (code c))) nfkc_latin1_table with
  | Some e => e.2
  | None => [N.of_nat (code c)]
  end.

Definition nfkc (s : string) : list N :=
  flat_map nfkc_char (list_ascii_of_string s).

(** The code points of a string. *)
Definition str_codes (s : string) : list N :=
  map (fun c => N.of_nat (code c)) (list_ascii_of_string s).

(** [s.replace(c, '')] *)
Definition str_remove (c : ascii) (s : string) : string :=
  string_of_list_ascii (List.filter (fun d => negb (Ascii.eqb c d)) (list_ascii_of_string s)).

Definition is_ascii (c : ascii) : bool := code c <? 128.

(** [_checknetloc] *)
Definition checknetloc (netloc : string) : res unit :=
  if negb (truthy netloc) || str_all is_ascii netloc then mret tt else
  let n := str_remove "?" (str_remove "#" (str_remove ":" (str_remove "@" netloc))) in
  let netloc2 := nfkc n in
  if bool_decide (str_codes n = netloc2) then mret tt
  else if existsb (fun c => bool_decide (N.of_nat (code c) ∈ netloc2))
                  (list_ascii_of_string "/?#@:")
  then raise else mret tt.

Record SplitResult := {
  sr_scheme : string; sr_netloc : string; sr_path : string;
  sr_query : string; sr_fragment : string }.

(** [urlsplit(url)] with [scheme=''] and [allow_fragments=True]. *)
Definition urlsplit (url0 : string) : res SplitResult :=
  let url1 := remove_unsafe (py_lstrip_by whatwg_c0_control_or_space url0) in
  let '(scheme, url2) := split_scheme url1 in
  nr ← split_netloc_checked url2;
  let '(netloc, url3) := nr in
  let '(url4, fragment) :=
    match split_first "#" url3 with Some p => p | None => (url3, EmptyString) end in
  let '(path, query) :=
    match split_first "?" url4 with Some p => p | None => (url4, EmptyString) end in
  _ ← checknetloc netloc;
  mret {| sr_scheme := scheme; sr_netloc := netloc; sr_path := path;
          sr_query := query; sr_fragment := fragment |}.

Definition uses_params : list string :=
  [""; "ftp"; "hdl"; "prospero"; "http"; "imap"; "https"; "shttp"; "rtsp";
   "rtsps"; "rtspu"; "sip"; "sips"; "mms"; "sftp"; "tel"].

(** [_splitparams(url)], called when [';' in url]. *)
Definition splitparams (url : string) : string * string :=
  match split_last "/" url with
  | Some (pre, post) =>
      match split_first ";" post with
      | Some (a, b) => (pre ++ "/" ++ a, b)
      | None => (url, EmptyString)
      end
  | None =>
      match split_first ";" url with
      | Some p => p
      | None => (url, EmptyString)
      end
  end.

Record ParseResult := {
  scheme : string; netloc : string; path : string; params : string;
  query : string; fragment : string }.

(** [urlparse(url)] *)
Definition urlparse (url : string) : res ParseResult :=
  sr ← urlsplit url;
  let '(path', params') :=
    if str_in (sr_scheme sr) uses_params && str_contains ";" (sr_path sr)
    then splitparams (sr_path sr) else (sr_path sr, EmptyString) in
  mret {| scheme := sr_scheme sr; netloc := sr_netloc sr; path := path';
          params := params'; query := sr_query sr; fragment := sr_fragment sr |}.

(** [def valid_url(raw)]: [bool(parsed.scheme and parsed.netloc)]. *)
Definition valid_url (raw : string) : res bool :=
  parsed ← urlparse raw;
  mret (truthy (scheme parsed) && truthy (netloc parsed)).

(** ** [run_checks] *)

Record CheckResult := { name : string; ok : bool; detail : string }.

Definition mk_result (n : string) (o : bool) (d : string) : CheckResult :=
  {| name := n; ok := o; detail := d |}.

(** [lst.append(x)] *)
Definition py_append {A} (l : list A) (x : A) : list A := app l [x].

(** [str(b)] for a Python [bool]. *)
Definition py_str_bool (b : bool) : string := if b then "True" else "False".

Definition expert_mode_keys : list string :=
  ["OPENFINCLAW_FIN_EXPERT_MODE"; "FIN_EXPERT_SDK_MODE"].
Definition info_mode_keys : list string :=
  ["OPENFINCLAW_FIN_INFO_MODE"; "FIN_INFO_FEED_MODE"].
Definition expert_key_keys : list string :=
  ["OPENFINCLAW_FIN_EXPERT_API_KEY"; "FIN_EXPERT_SDK_API_KEY"].
Definition expert_endpoint_keys : list string :=
  ["OPENFINCLAW_FIN_EXPERT_ENDPOINT"; "FIN_EXPERT_SDK_ENDPOINT"].
Definition info_key_keys : list string :=
  ["OPENFINCLAW_FIN_INFO_API_KEY"; "FIN_INFO_FEED_API_KEY"].
Definition info_endpoint_keys : list string :=
  ["OPENFINCLAW_FIN_INFO_ENDPOINT"; "FIN_INFO_FEED_ENDPOINT"].
Definition monitoring_auto_evaluate_keys : list string :=
  ["OPENFINCLAW_FIN_MONITORING_AUTO_EVALUATE"; "FIN_MONITORING_AUTO_EVALUATE"].
Definition monitoring_poll_keys : list string :=
  ["OPENFINCLAW_FIN_MONITORING_POLL_INTERVAL_MS"; "FIN_MONITORING_POLL_INTERVAL_MS"].

(** Every alias list [run_checks] passes to [pick]. *)
Definition alias_lists : list (list string) :=
  [expert_mode_keys; info_mode_keys; expert_key_keys; expert_endpoint_keys;
   info_key_keys; info_endpoint_keys; monitoring_auto_evaluate_keys;
   monitoring_poll_keys].

(** [(pick(env, keys, "stub") or "stub").lower()] *)
Definition resolve_mode (env : gmap string string) (keys : list string) : string :=
  py_lower (py_or (pick env keys (Some "stub")) "stub").

(** [bool(key) and bool(endpoint) and valid_url(endpoint)], short-circuit. *)
Definition live_ok (key endpoint : option string) : res bool :=
  if truthy_opt key then
    match endpoint with
    | Some e => if truthy e then valid_url e else mret false
    | None => mret false
    end
  else mret false.

Definition expert_mode_error (m : string) : string :=
  "Invalid expert mode: " ++ m ++ " (expected stub/live)".
Definition info_mode_error (m : string) : string :=
  "Invalid info mode: " ++ m ++ " (expected stub/live)".
Definition expert_live_error : string :=
  "Expert live mode requires FIN_EXPERT_SDK_API_KEY and FIN_EXPERT_SDK_ENDPOINT (valid URL)".
Definition info_live_error : string :=
  "Info live mode requires FIN_INFO_FEED_API_KEY and FIN_INFO_FEED_ENDPOINT (valid URL)".
Definition monitoring_error : string :=
  "Monitoring poll interval must be >= 10000 ms".

Definition monitoring_poll_of (env : gmap string string) : Z :=
  parse_int (pick env monitoring_poll_keys None) 300000.

Definition monitoring_enabled_of (env : gmap string string) : bool :=
  parse_bool (pick env monitoring_auto_evaluate_keys None) true.

(** [def run_checks(env)], with [results] and [errors] threaded through. *)
Definition run_checks (env : gmap string string)
    : res (list CheckResult * list string) :=
  let results : list CheckResult := [] in
  let errors : list string := [] in
  let expert_mode := resolve_mode env expert_mode_keys in
  let info_mode := resolve_mode env info_mode_keys in
  let errors := if negb (str_in expert_mode ["stub"; "live"])
                then py_append errors (expert_mode_error expert_mode) else errors in
  let errors := if negb (str_in info_mode ["stub"; "live"])
                then py_append errors (info_mode_error info_mode) else errors in
  let results := py_append results
    (mk_result "expert.mode" (str_in expert_mode ["stub"; "live"]) expert_mode) in
  let results := py_append results
    (mk_result "info.mode" (str_in info_mode ["stub"; "live"]) info_mode) in
  let expert_key := pick env expert_key_keys None in
  let expert_endpoint := pick env expert_endpoint_keys None in
  let info_key := pick env info_key_keys None in
  let info_endpoint := pick env info_endpoint_keys None in
  st ← (if String.eqb expert_mode "live" then
          ok' ← live_ok expert_key expert_endpoint;
          let results := py_append results
            (mk_result "expert.live_credentials" ok' "apiKey+endpoint required in live mode") in
          mret (results, if negb ok' then py_append errors expert_live_error else errors)
        else
          mret (py_append results (mk_result "expert.live_credentials" true "stub mode"), errors));
  let '(results, errors) := st in
  st ← (if String.eqb info_mode "live" then
          ok' ← live_ok info_key info_endpoint;
          let results := py_append results
            (mk_result "info.live_credentials" ok' "apiKey+endpoint required in live mode") in
          mret (results, if negb ok' then py_append errors info_live_error else errors)
        else
          mret (py_append results (mk_result "info.live_credentials" true "stub mode"), errors));
  let '(results, errors) := st in
  let monitoring_enabled := monitoring_enabled_of env in
  let monitoring_poll := monitoring_poll_of env in
  let monitoring_ok := (monitoring_poll >=? 10000)%Z in
  let results := py_append results
    (mk_result "monitoring.poll_interval_ms" monitoring_ok
       (py_str_int monitoring_poll ++ " (autoEvaluate=" ++
        py_lower (py_str_bool monitoring_enabled) ++ ")")) in
  let errors := if negb monitoring_ok then py_append errors monitoring_error else errors in
  mret (results, errors).

(** ** Auxiliary definitions for the properties *)

Definition mode_ok (m : string) : bool := str_in m ["stub"; "live"].

(** One live-credentials step: the result appended and the errors it adds. *)
Definition cred_check (mode : string) (key endpoint : option string)
    (nm err : string) : res (CheckResult * list string) :=
  if String.eqb mode "live" then
    ok' ← live_ok key endpoint;
    mret (mk_result nm ok' "apiKey+endpoint required in live mode",
          if negb ok' then [err] else [])
  else mret (mk_result nm true "stub mode", []).

Definition monitoring_result (env : gmap string string) : CheckResult :=
  mk_result "monitoring.poll_interval_ms" (monitoring_poll_of env >=? 10000)%Z
    (py_str_int (monitoring_poll_of env) ++ " (autoEvaluate=" ++
     py_lower (py_str_bool (monitoring_enabled_of env)) ++ ")").

Definition errors_if (b : bool) (e : string) : list string :=
  if b then [] else [e].

(** The error a failing check contributes, by the check's name. *)
Definition error_for_check (r : CheckResult) : string :=
  if String.eqb (name r) "expert.mode" then expert_mode_error (detail r)
  else if String.eqb (name r) "info.mode" then info_mode_error (detail r)
  else if String.eqb (name r) "expert.live_credentials" then expert_live_error
  else if String.eqb (name r) "info.live_credentials" then info_live_error
  else monitoring_error.

Definition failing (rs : list CheckResult) : list CheckResult :=
  List.filter (fun r => negb (ok r)) rs.

Definition check_names : list string :=
  ["expert.mode"; "info.mode"; "expert.live_credentials";
   "info.live_credentials"; "monitoring.poll_interval_ms"].

(** The configuration on which [valid_url] raises inside [run_checks]:
    expert live mode, an API key, and the endpoint ["http://["]. *)
Definition bracket_env : gmap string string :=
  <["OPENFINCLAW_FIN_EXPERT_MODE" := "live"]>
  (<["OPENFINCLAW_FIN_EXPERT_API_KEY" := "k"]>
  (<["OPENFINCLAW_FIN_EXPERT_ENDPOINT" := "http://["]> ∅)).

Definition default_results : list CheckResult :=
  [mk_result "expert.mode" true "stub";
   mk_result "info.mode" true "stub";
   mk_result "expert.live_credentials" true "stub mode";
   mk_result "info.live_credentials" true "stub mode";
   mk_result "monitoring.poll_interval_ms" true "300000 (autoEvaluate=true)"].

(** A configuration failing three checks: an invalid expert mode given
    through the legacy alias, info live mode with no credentials, and a
    poll interval one below the bound. *)
Definition bad_env : gmap string string :=
  <["FIN_EXPERT_SDK_MODE" := "Production"]>
  (<["OPENFINCLAW_FIN_INFO_MODE" := "live"]>
  (<["OPENFINCLAW_FIN_MONITORING_POLL_INTERVAL_MS" := "9999"]> ∅)).

Definition bad_results : list CheckResult :=
  [mk_result "expert.mode" false "production";
   mk_result "info.mode" true "live";
   mk_result "expert.live_credentials" true "stub mode";
   mk_result "info.live_credentials" false "apiKey+endpoint required in live mode";
   mk_result "monitoring.poll_interval_ms" false "9999 (autoEvaluate=true)"].

Definition bad_errors : list string :=
  ["Invalid expert mode: production (expected stub/live)";
   "Info live mode requires FIN_INFO_FEED_API_KEY and FIN_INFO_FEED_ENDPOINT (valid URL)";
   "Monitoring poll interval must be >= 10000 ms"].

(** The live-credentials property of one feed, as C3 states it. *)
Definition live_credentials_prop (env : gmap string string) (rs : list CheckResult)
    (es : list string) (mode_keys key_keys endpoint_keys : list string)
    (i : nat) (nm err : string) : Prop :=
  (resolve_mode env mode_keys = "live" ->
     exists r, nth_error rs i = Some r /\ name r = nm /\
       (ok r = true <->
          exists k e, pick env key_keys None = Some k /\ k <> "" /\
                      pick env endpoint_keys None = Some e /\ e <> "" /\
                      valid_url e = Ok true) /\
       (ok r = false -> In err es)) /\
  (resolve_mode env mode_keys <> "live" ->
     nth_error rs i = Some (mk_result nm true "stub mode") /\ ~ In err es).

Ltac errors_in_cases Hin :=
  repeat (apply in_app_or in Hin as [Hin|Hin]);
  unfold errors_if in Hin;
  repeat match type of Hin with
         | context [if ?b then _ else _] => destruct b
         end;
  cbn in Hin;
  repeat (destruct Hin as [Hin|Hin]); try contradiction;
  unfold expert_mode_error, info_mode_error, expert_live_error, info_live_error,
    monitoring_error in Hin; cbn in Hin; try discriminate.

(** Spec side of C6: the stripped value of the first alias whose stripped
    value is non-empty, else the default. *)
Definition pick_first_nonblank_spec (env : gmap string string) (keys : list string)
    (default : option string) : option string :=
  match List.find (fun k => truthy (py_strip (from_option id "" (env !! k)))) keys with
  | Some k => Some (py_strip (from_option id "" (env !! k)))
  | None => default
  end.

(** Both expert-mode keys set, the namespaced one to " live ". *)
Definition prio_env : gmap string string :=
  <["OPENFINCLAW_FIN_EXPERT_MODE" := " live "]>
  (<["FIN_EXPERT_SDK_MODE" := "stub"]> ∅).

(** The scheme and netloc that [urlsplit] computes, before its checks. *)
Definition url_scheme_netloc (url : string) : string * string :=
  let url1 := remove_unsafe (py_lstrip_by whatwg_c0_control_or_space url) in
  let '(sch, url2) := split_scheme url1 in
  match after_double_slash url2 with
  | Some r => (sch, (splitnetloc r).1)
  | None => (sch, EmptyString)
  end.

(** Expert live mode with an API key and the endpoint "not-a-url". *)
Definition notaurl_env : gmap string string :=
  <["OPENFINCLAW_FIN_EXPERT_MODE" := "live"]>
  (<["FIN_EXPERT_SDK_API_KEY" := "k"]>
  (<["FIN_EXPERT_SDK_ENDPOINT" := "not-a-url"]> ∅)).

(** ** [parse_env_file] *)

(** Line boundaries of [str.splitlines] on code points 0..255: LF, VT, FF,
    CR (CR LF counts once), FS, GS, RS and NEL. *)
Definition is_line_break (c : ascii) : bool :=
  let n := code c in
  ((10 <=? n) && (n <=? 13)) || ((28 <=? n) && (n <=? 30)) || (n =? 133).

(** [text.splitlines()]: no empty line after a final boundary. *)
Fixpoint splitlines (s : string) : list string :=
  match s with
  | EmptyString => []
  | String c r =>
      if is_line_break c then
        EmptyString :: splitlines
          (if code c =? 13 then
             match r with
             | String d r2 => if code d =? 10 then r2 else r
             | EmptyString => r
             end
           else r)
      else match splitlines r with
           | [] => [String c EmptyString]
           | l :: ls => String c l :: ls
           end
  end.

(** [s[n:]] *)
Fixpoint str_drop (n : nat) (s : string) : string :=
  match n, s with
  | O, _ => s
  | S n', String _ r => str_drop n' r
  | S _, EmptyString => EmptyString
  end.

(** The double-quote character, code 34. *)
Definition dquote : ascii := ascii_of_nat 34.

(** [s.strip(c)] for a one-character [c]. *)
Definition py_strip_char (c : ascii) (s : string) : string :=
  py_rstrip_by (Ascii.eqb c) (py_lstrip_by (Ascii.eqb c) s).

(** The body of the loop of [parse_env_file] on one raw line: the entry
    [loaded[key] = value] it makes, if any. *)
Definition env_line_entry (raw_line : string) : option (string * string) :=
  let line := py_strip raw_line in
  if negb (truthy line) || starts_with "#" line then None else
  let line := if String.prefix "export " line
              then py_strip (str_drop (String.length "export ") line) else line in
  match split_first "=" line with
  | None => None
  | Some (key, value) =>
      let key := py_strip key in
      let value := py_strip_char dquote (py_strip_char "'" (py_strip value)) in
      if truthy key then Some (key, value) else None
  end.

Definition env_lines_into (lines : list string) (loaded : gmap string string)
    : gmap string string :=
  fold_left (fun m raw_line =>
    match env_line_entry raw_line with
    | Some (key, value) => <[key := value]> m
    | None => m
    end) lines loaded.

(** [def parse_env_file(path)] when reading succeeds: the file is [None]
    when [path.exists()] is false, and otherwise its text as
    [read_text(encoding="utf-8")] decodes it.  [load_env_file] below adds
    the failures of [read_text]. *)
Definition parse_env_file (file : option string) : gmap string string :=
  match file with
  | None => ∅
  | Some text => env_lines_into (splitlines text) ∅
  end.

(** [parse_env_file(path)] with its read: [file] is [None] when
    [path.exists()] is false, and otherwise the outcome of
    [path.read_text(encoding="utf-8")], the decoded text or the exception it
    raises ([UnicodeDecodeError], a [ValueError], on bytes that are not
    UTF-8; [OSError] on a directory or an unreadable file). *)
Definition load_env_file (file : option (res string)) : res (gmap string string) :=
  match file with
  | None => mret ∅
  | Some read => text ← read; mret (parse_env_file (Some text))
  end.

(** ** [main] *)

(** The parsed command line: [str(Path(args.env_file))] and
    [args.strict_file]. *)
Record Args := { env_file : string; strict_file : bool }.

(** ["- [PASS] name: detail"] or FAIL. *)
Definition row_line (row : CheckResult) : string :=
  "- [" ++ (if ok row then "PASS" else "FAIL") ++ "] " ++ name row ++ ": " ++ detail row.

Definition newline : string := String (ascii_of_nat 10) EmptyString.

(** [def main()]: [file] is the env file as for [load_env_file],
    [environ] is [os.environ]; the result is the printed lines (one per
    [print] call) and the return value passed to [sys.exit]. *)
Definition main (args : Args) (file : option (res string))
    (environ : gmap string string) : res (list string * Z) :=
  file_values ← load_env_file file;
  if strict_file args && negb (bool_decide (is_Some file)) then
    mret (["[FAIL] env file not found: " ++ env_file args], 1%Z)
  else
    let merged := environ ∪ file_values in
    p ← run_checks merged;
    let '(results, errors) := p in
    let out := app ["Finance env validation (uv):";
                    "- env file: " ++ env_file args ++ " (" ++
                    (if bool_decide (is_Some file) then "found"
                     else "missing, using process env only") ++ ")"]
                   (map row_line results) in
    match errors with
    | _ :: _ => mret (app out ((newline ++ "Errors:") :: map (fun msg => "- " ++ msg) errors), 1%Z)
    | [] => mret (app out [newline ++ "All finance environment checks passed."], 0%Z)
    end.

(** ** Auxiliary definitions for [parse_env_file] and [main] *)

(** The entries the lines make in [parse_env_file], in file order. *)
Fixpoint env_entries (lines : list string) : list (string * string) :=
  match lines with
  | [] => []
  | l :: ls =>
      match env_line_entry l with
      | Some e => e :: env_entries ls
      | None => env_entries ls
      end
  end.

(** The value of the last entry for [k]. *)
Definition lookup_last (k : string) (kvs : list (string * string)) : option string :=
  option_map snd (List.find (fun kv => String.eqb kv.1 k) (rev kvs)).

(** The usual shape of an environment variable name: ASCII letters, digits
    and [_]. *)
Definition is_env_key_char (c : ascii) : bool :=
  is_ascii_alpha c || is_digit c || Ascii.eqb c "_".

Definition env_key_ok (k : string) : bool := truthy k && str_all is_env_key_char k.

Definition no_line_break (s : string) : bool :=
  str_all (fun c => negb (is_line_break c)) s.

(** Neither the first nor the last character of [s] satisfies [p]. *)
Definition edges_not (p : ascii -> bool) (s : string) : bool :=
  match s with String c _ => negb (p c) | EmptyString => true end &&
  match str_rev s with String c _ => negb (p c) | EmptyString => true end.

(** The line [KEY="value"]. *)
Definition quoted_line (kv : string * string) : string :=
  kv.1 ++ String "=" (String dquote (kv.2 ++ String dquote EmptyString)).

Definition quoted_value_ok (v : string) : bool :=
  no_line_break v && edges_not (Ascii.eqb dquote) v.

(** The line [KEY=value]. *)
Definition plain_line (kv : string * string) : string := kv.1 ++ String "=" kv.2.

Definition plain_value_ok (v : string) : bool :=
  no_line_break v &&
  edges_not (fun c => py_isspace c || Ascii.eqb c "'" || Ascii.eqb c dquote) v.

(** An env file with one line per entry, each ended by a newline. *)
Fixpoint env_text (line : string * string -> string) (kvs : list (string * string))
    : string :=
  match kvs with
  | [] => EmptyString
  | kv :: kvs' => line kv ++ newline ++ env_text line kvs'
  end.

(** An environment that sets every alias [run_checks] reads. *)
Definition all_aliases_env : gmap string string :=
  list_to_map (map (fun k => (k, "stub")) (concat alias_lists)).

(** * Properties *)

Example py_int_ex1 : py_int " -1_000 " = Some (-1000)%Z. Proof. reflexivity. Qed.
Example py_int_ex2 : py_int "1__0" = None. Proof. reflexivity. Qed.
Example py_int_ex3 : py_int "007" = Some 7%Z. Proof. reflexivity. Qed.
Example py_str_int_ex : py_str_int 300000 = "300000". Proof. reflexivity. Qed.
Example py_str_int_ex2 : py_str_int (-5) = "-5". Proof. reflexivity. Qed.

Example valid_url_ex1 : valid_url "https://api.example.com" = Ok true. Proof. reflexivity. Qed.
Example valid_url_ex2 : valid_url "not-a-url" = Ok false. Proof. reflexivity. Qed.
Example valid_url_ex3 : valid_url "http://[" = Raise ValueError. Proof. reflexivity. Qed.
Example valid_url_ex4 : valid_url "http://[::1]:80/x" = Ok true. Proof. reflexivity. Qed.
Example valid_url_ex5 : valid_url "http://[1.2.3.4]" = Raise ValueError. Proof. reflexivity. Qed.
Example valid_url_ex6 : valid_url "http://[v1.x]" = Ok true. Proof. reflexivity. Qed.
Example valid_url_ex7 : valid_url "x://y" = Ok true. Proof. reflexivity. Qed.
Example valid_url_ex8 : valid_url "mailto:a@b" = Ok false. Proof. reflexivity. Qed.
Example valid_url_ex9 : valid_url "http://[fe80::1%eth0]" = Ok true. Proof. reflexivity. Qed.
Example valid_url_ex10 : valid_url "http://[::ffff:1.2.3.4]" = Ok true. Proof. reflexivity. Qed.
Example valid_url_ex11 : valid_url "http://[1:2:3:4:5:6:7:8:9]" = Raise ValueError. Proof. reflexivity. Qed.
Example valid_url_ex12 : valid_url "//host" = Ok false. Proof. reflexivity. Qed.
Example valid_url_ex13 : valid_url "http://[@::1]" = Raise ValueError. Proof. reflexivity. Qed.
Example valid_url_ex14 : valid_url "http://[@v1.]x" = Ok true. Proof. reflexivity. Qed.
Example valid_url_ex15 :
  valid_url ("http://h" ++ String (ascii_of_nat 188) "") = Ok true.
Proof. reflexivity. Qed.
Example checknetloc_ex1 :
  checknetloc (String "/" (String (ascii_of_nat 160) "")) = Raise ValueError.
Proof. reflexivity. Qed.
Example checknetloc_ex2 : checknetloc (String (ascii_of_nat 170) "") = Ok tt.
Proof. reflexivity. Qed.

Example poll_10000_passes :
  match run_checks (<["FIN_MONITORING_POLL_INTERVAL_MS" := "10000"]> ∅) with
  | Ok (rs, es) => nth_error rs 4 = Some (mk_result "monitoring.poll_interval_ms" true
                                          "10000 (autoEvaluate=true)") /\ es = []
  | Raise _ => False
  end.
Proof. vm_compute. split; reflexivity. Qed.

Example poll_unparsable_defaults :
  match run_checks (<["OPENFINCLAW_FIN_MONITORING_POLL_INTERVAL_MS" := "10s"]> ∅) with
  | Ok (rs, es) => nth_error rs 4 = Some (mk_result "monitoring.poll_interval_ms" true
                                          "300000 (autoEvaluate=true)") /\ es = []
  | Raise _ => False
  end.
Proof. vm_compute. split; reflexivity. Qed.

Example run_checks_empty_ex :
  run_checks ∅ = Ok ([mk_result "expert.mode" true "stub";
                      mk_result "info.mode" true "stub";
                      mk_result "expert.live_credentials" true "stub mode";
                      mk_result "info.live_credentials" true "stub mode";
                      mk_result "monitoring.poll_interval_ms" true "300000 (autoEvaluate=true)"], []).
Proof. vm_compute. reflexivity. Qed.

Lemma run_checks_unfold (env : gmap string string) :
  run_checks env =
    (let em := resolve_mode env expert_mode_keys in
     let im := resolve_mode env info_mode_keys in
     c1 ← cred_check em (pick env expert_key_keys None)
            (pick env expert_endpoint_keys None)
            "expert.live_credentials" expert_live_error;
     c2 ← cred_check im (pick env info_key_keys None)
            (pick env info_endpoint_keys None)
            "info.live_credentials" info_live_error;
     mret ([mk_result "expert.mode" (mode_ok em) em;
            mk_result "info.mode" (mode_ok im) im;
            c1.1; c2.1; monitoring_result env],
           app (errors_if (mode_ok em) (expert_mode_error em))
           (app (errors_if (mode_ok im) (info_mode_error im))
           (app c1.2 (app c2.2
             (errors_if (monitoring_poll_of env >=? 10000)%Z monitoring_error)))))).
Proof.
  unfold run_checks, cred_check, monitoring_result, mode_ok, errors_if.
  cbn zeta.
  destruct (String.eqb (resolve_mode env expert_mode_keys) "live");
  [destruct (live_ok (pick env expert_key_keys None) (pick env expert_endpoint_keys None))
     as [[|]|] |];
  destruct (String.eqb (resolve_mode env info_mode_keys) "live");
  try (destruct (live_ok (pick env info_key_keys None) (pick env info_endpoint_keys None))
     as [[|]|]);
  destruct (str_in (resolve_mode env expert_mode_keys) ["stub"; "live"]);
  destruct (str_in (resolve_mode env info_mode_keys) ["stub"; "live"]);
  destruct (monitoring_poll_of env >=? 10000)%Z; reflexivity.
Qed.

Lemma cred_check_ok (m : string) (k e : option string) (nm err : string)
    (c : CheckResult * list string) :
  cred_check m k e nm err = Ok c ->
  name c.1 = nm /\ c.2 = errors_if (ok c.1) err /\
  (String.eqb m "live" = true ->
     live_ok k e = Ok (ok c.1) /\ detail c.1 = "apiKey+endpoint required in live mode") /\
  (String.eqb m "live" = false -> c.1 = mk_result nm true "stub mode").
Proof.
  unfold cred_check. intros H.
  destruct (String.eqb m "live") eqn:Hm.
  - destruct (live_ok k e) as [b|x] eqn:Hl; cbn in H; [|discriminate].
    injection H as <-. cbn. destruct b; repeat split; auto; discriminate.
  - cbn in H. injection H as <-. cbn. repeat split; auto; discriminate.
Qed.

Lemma run_checks_Ok_inv (env : gmap string string) rs es :
  run_checks env = Ok (rs, es) ->
  exists c1 c2,
    cred_check (resolve_mode env expert_mode_keys) (pick env expert_key_keys None)
      (pick env expert_endpoint_keys None) "expert.live_credentials" expert_live_error = Ok c1 /\
    cred_check (resolve_mode env info_mode_keys) (pick env info_key_keys None)
      (pick env info_endpoint_keys None) "info.live_credentials" info_live_error = Ok c2 /\
    rs = [mk_result "expert.mode" (mode_ok (resolve_mode env expert_mode_keys))
            (resolve_mode env expert_mode_keys);
          mk_result "info.mode" (mode_ok (resolve_mode env info_mode_keys))
            (resolve_mode env info_mode_keys);
          c1.1; c2.1; monitoring_result env] /\
    es = app (errors_if (mode_ok (resolve_mode env expert_mode_keys))
                (expert_mode_error (resolve_mode env expert_mode_keys)))
         (app (errors_if (mode_ok (resolve_mode env info_mode_keys))
                (info_mode_error (resolve_mode env info_mode_keys)))
         (app c1.2 (app c2.2
           (errors_if (monitoring_poll_of env >=? 10000)%Z monitoring_error)))).
Proof.
  rewrite run_checks_unfold. cbn zeta. intros H.
  destruct (cred_check _ _ _ "expert.live_credentials" _) as [c1|x] eqn:E1;
    cbn in H; [|discriminate].
  destruct (cred_check _ _ _ "info.live_credentials" _) as [c2|x] eqn:E2;
    cbn in H; [|discriminate].
  injection H as <- <-. exists c1, c2. auto.
Qed.

Lemma errors_are_failing_checks (env : gmap string string) rs es :
  run_checks env = Ok (rs, es) ->
  es = map error_for_check (failing rs).
Proof.
  intros H. apply run_checks_Ok_inv in H as (c1 & c2 & E1 & E2 & -> & ->).
  apply cred_check_ok in E1 as (N1 & L1 & _).
  apply cred_check_ok in E2 as (N2 & L2 & _).
  destruct c1 as [[n1 o1 d1] l1], c2 as [[n2 o2 d2] l2]; simpl fst in *; simpl snd in *.
  cbn [name ok] in N1, N2, L1, L2; subst.
  unfold failing, monitoring_result, errors_if.
  destruct (mode_ok (resolve_mode env expert_mode_keys)),
           (mode_ok (resolve_mode env info_mode_keys)), o1, o2,
           (monitoring_poll_of env >=? 10000)%Z; reflexivity.
Qed.

Lemma run_checks_names (env : gmap string string) rs es :
  run_checks env = Ok (rs, es) -> map name rs = check_names.
Proof.
  intros H. apply run_checks_Ok_inv in H as (c1 & c2 & E1 & E2 & -> & _).
  apply cred_check_ok in E1 as (N1 & _), E2 as (N2 & _).
  cbn. rewrite N1, N2. reflexivity.
Qed.

Lemma bracket_env_raises : run_checks bracket_env = Raise ValueError.
Proof. vm_compute. reflexivity. Qed.

Lemma run_checks_bad_env : run_checks bad_env = Ok (bad_results, bad_errors).
Proof. vm_compute. reflexivity. Qed.

Lemma map_failing_nil (f : CheckResult -> string) (rs : list CheckResult) :
  map f (failing rs) = [] <-> Forall (fun r => ok r = true) rs.
Proof.
  unfold failing. induction rs as [|r rs IH]; cbn.
  - split; auto.
  - destruct (ok r) eqn:Hr; cbn.
    + rewrite IH. split; [intros; constructor; auto | intros H; inversion H; auto].
    + split; [discriminate | intros H; inversion H; congruence].
Qed.

(** ** Claims *)

(** C1. Whenever [run_checks] returns, it returns exactly five results
    named expert.mode, info.mode, expert.live_credentials,
    info.live_credentials, monitoring.poll_interval_ms, in that order; but
    it does not return on every input: on [bracket_env] (expert live mode,
    an API key, endpoint ["http://["]) it raises [ValueError]. *)
Theorem run_checks_five_results_unless_raise :
  (forall (env : gmap string string) rs es,
     run_checks env = Ok (rs, es) -> length rs = 5 /\ map name rs = check_names) /\
  run_checks bracket_env = Raise ValueError.
Proof.
  split.
  - intros env rs es H. pose proof (run_checks_names env rs es H) as Hn.
    split; [|exact Hn]. rewrite <- (length_map name rs), Hn. reflexivity.
  - exact bracket_env_raises.
Qed.

Lemma run_checks_five_results_unless_raise_witness :
  length default_results = 5 /\ map name default_results = check_names.
Proof.
  apply (proj1 run_checks_five_results_unless_raise ∅ default_results []).
  vm_compute. reflexivity.
Defined.

(** C2. Whenever [run_checks] returns [(results, errors)], [errors] is
    empty if and only if every result has [ok = true]. *)
Theorem errors_empty_iff_all_ok (env : gmap string string) rs es
    (H : run_checks env = Ok (rs, es)) :
  es = [] <-> Forall (fun r => ok r = true) rs.
Proof.
  rewrite (errors_are_failing_checks env rs es H). apply map_failing_nil.
Qed.

Lemma errors_empty_iff_all_ok_witness :
  bad_errors = [] <-> Forall (fun r => ok r = true) bad_results.
Proof.
  apply (errors_empty_iff_all_ok bad_env). vm_compute. reflexivity.
Defined.

(** C4 (defect). [run_checks] does not always return normally: in expert
    live mode with an API key and the endpoint ["http://["], [valid_url]
    calls [urlparse], which raises [ValueError] ("Invalid IPv6 URL"), and
    nothing catches it. *)
Theorem run_checks_raises_on_bracketed_endpoint :
  valid_url "http://[" = Raise ValueError /\
  bracket_env !! "OPENFINCLAW_FIN_EXPERT_MODE" = Some "live" /\
  bracket_env !! "OPENFINCLAW_FIN_EXPERT_API_KEY" = Some "k" /\
  bracket_env !! "OPENFINCLAW_FIN_EXPERT_ENDPOINT" = Some "http://[" /\
  run_checks bracket_env = Raise ValueError.
Proof.
  split; [reflexivity|]. split; [reflexivity|]. split; [reflexivity|].
  split; [reflexivity|]. exact bracket_env_raises.
Qed.

(** C8. On the empty configuration both modes resolve to "stub", the poll
    interval to 300000 and auto-evaluate to true, and [run_checks] returns
    five passing results and no error. *)
Theorem empty_config_defaults :
  resolve_mode ∅ expert_mode_keys = "stub" /\
  resolve_mode ∅ info_mode_keys = "stub" /\
  monitoring_poll_of ∅ = 300000%Z /\
  monitoring_enabled_of ∅ = true /\
  run_checks ∅ = Ok (default_results, []) /\
  Forall (fun r => ok r = true) default_results.
Proof.
  repeat split; try (vm_compute; reflexivity).
  repeat constructor.
Qed.

(** C10. Whenever [run_checks] returns [(results, errors)], the errors are
    exactly one per failing result, in the order of the results: the
    expert and info mode errors naming the resolved value, the two live
    credential errors and the poll interval error. *)
Theorem errors_match_failing_checks (env : gmap string string) rs es
    (H : run_checks env = Ok (rs, es)) :
  length es = length (failing rs) /\ es = map error_for_check (failing rs).
Proof.
  pose proof (errors_are_failing_checks env rs es H) as E.
  split; [rewrite E; apply length_map | exact E].
Qed.

Lemma errors_match_failing_checks_witness :
  length bad_errors = length (failing bad_results) /\
  bad_errors = map error_for_check (failing bad_results).
Proof.
  apply (errors_match_failing_checks bad_env). vm_compute. reflexivity.
Defined.

Lemma truthy_true (s : string) : truthy s = true <-> s <> "".
Proof.
  unfold truthy. destruct (String.eqb_spec s ""); cbn; split; congruence.
Qed.

Lemma live_ok_true (k e : option string) :
  live_ok k e = Ok true <->
  exists k' e', k = Some k' /\ k' <> "" /\ e = Some e' /\ e' <> "" /\
                valid_url e' = Ok true.
Proof.
  unfold live_ok, truthy_opt. split.
  - destruct k as [k'|]; [|discriminate].
    destruct (truthy k') eqn:Hk; [|discriminate].
    destruct e as [e'|]; [|discriminate].
    destruct (truthy e') eqn:He; [|discriminate].
    intros Hv. exists k', e'. rewrite truthy_true in Hk, He. auto.
  - intros (k' & e' & -> & Hk & -> & He & Hv).
    apply truthy_true in Hk, He. rewrite Hk, He. exact Hv.
Qed.

Lemma live_ok_result (k e : option string) (b : bool) :
  live_ok k e = Ok b ->
  (b = true <-> exists k' e', k = Some k' /\ k' <> "" /\ e = Some e' /\ e' <> "" /\
                             valid_url e' = Ok true).
Proof.
  intros H. rewrite <- live_ok_true, H. split; [intros ->; auto | congruence].
Qed.

(** C3. Whenever [run_checks] returns [(results, errors)]: if the expert
    mode resolves to "live", the expert.live_credentials result (third) has
    [ok = true] iff the expert API key and endpoint aliases resolve to
    non-empty values and [valid_url] accepts the endpoint, and when it fails
    the exact expert credential error is in [errors]; otherwise the result
    is [ok = true] with detail "stub mode" and that error is absent.  The
    info.live_credentials result (fourth) is the same with the info aliases
    and the info error text. *)
Theorem live_credentials_checks (env : gmap string string) rs es
    (H : run_checks env = Ok (rs, es)) :
  live_credentials_prop env rs es expert_mode_keys expert_key_keys
    expert_endpoint_keys 2 "expert.live_credentials" expert_live_error /\
  live_credentials_prop env rs es info_mode_keys info_key_keys
    info_endpoint_keys 3 "info.live_credentials" info_live_error.
Proof.
  destruct (run_checks_Ok_inv env rs es H) as (c1 & c2 & E1 & E2 & Hrs & Hes).
  destruct (cred_check_ok _ _ _ _ _ _ E1) as (N1 & L1 & Hl1 & Hs1).
  destruct (cred_check_ok _ _ _ _ _ _ E2) as (N2 & L2 & Hl2 & Hs2).
  split; split.
  - intros Hlive. apply String.eqb_eq in Hlive.
    destruct (Hl1 Hlive) as [Hlo _].
    exists c1.1. rewrite Hrs. cbn. repeat split; auto.
    + apply (live_ok_result _ _ _ Hlo); auto.
    + apply (live_ok_result _ _ _ Hlo).
    + intros Hf. rewrite Hes, L1, Hf, !in_app_iff. cbn. tauto.
  - intros Hstub. apply String.eqb_neq in Hstub.
    rewrite Hrs, (Hs1 Hstub). split; [reflexivity|].
    rewrite Hes, L1, L2, (Hs1 Hstub). cbn. intros Hin. errors_in_cases Hin.
  - intros Hlive. apply String.eqb_eq in Hlive.
    destruct (Hl2 Hlive) as [Hlo _].
    exists c2.1. rewrite Hrs. cbn. repeat split; auto.
    + apply (live_ok_result _ _ _ Hlo); auto.
    + apply (live_ok_result _ _ _ Hlo).
    + intros Hf. rewrite Hes, L2, Hf, !in_app_iff. cbn. tauto.
  - intros Hstub. apply String.eqb_neq in Hstub.
    rewrite Hrs, (Hs2 Hstub). split; [reflexivity|].
    rewrite Hes, L1, L2, (Hs2 Hstub). cbn. intros Hin. errors_in_cases Hin.
Qed.

Lemma live_credentials_checks_witness :
  live_credentials_prop bad_env bad_results bad_errors expert_mode_keys expert_key_keys
    expert_endpoint_keys 2 "expert.live_credentials" expert_live_error /\
  live_credentials_prop bad_env bad_results bad_errors info_mode_keys info_key_keys
    info_endpoint_keys 3 "info.live_credentials" info_live_error.
Proof.
  apply (live_credentials_checks bad_env). vm_compute. reflexivity.
Defined.

Lemma mode_ok_false (m : string) : m <> "stub" -> m <> "live" -> mode_ok m = false.
Proof.
  intros H1 H2. unfold mode_ok, str_in. cbn.
  apply String.eqb_neq in H1, H2. rewrite H1, H2. reflexivity.
Qed.

(** C7. Whenever [run_checks] returns [(results, errors)]: if the expert
    mode resolves to a value [m] other than "stub" and "live", the first
    result is expert.mode with [ok = false] and detail [m], and
    "Invalid expert mode: <m> (expected stub/live)" is in [errors]; the
    same holds for info mode with the second result and "info". *)
Theorem invalid_mode_recorded (env : gmap string string) rs es
    (H : run_checks env = Ok (rs, es)) :
  (forall m, resolve_mode env expert_mode_keys = m -> m <> "stub" -> m <> "live" ->
     nth_error rs 0 = Some (mk_result "expert.mode" false m) /\
     In ("Invalid expert mode: " ++ m ++ " (expected stub/live)") es) /\
  (forall m, resolve_mode env info_mode_keys = m -> m <> "stub" -> m <> "live" ->
     nth_error rs 1 = Some (mk_result "info.mode" false m) /\
     In ("Invalid info mode: " ++ m ++ " (expected stub/live)") es).
Proof.
  destruct (run_checks_Ok_inv env rs es H) as (c1 & c2 & _ & _ & Hrs & Hes).
  split; intros m Hm H1 H2; pose proof (mode_ok_false m H1 H2) as Hf;
    rewrite Hrs, Hes, Hm, Hf, !in_app_iff; cbn; split; auto.
Qed.

Lemma invalid_mode_recorded_witness :
  (forall m, resolve_mode bad_env expert_mode_keys = m -> m <> "stub" -> m <> "live" ->
     nth_error bad_results 0 = Some (mk_result "expert.mode" false m) /\
     In ("Invalid expert mode: " ++ m ++ " (expected stub/live)") bad_errors) /\
  (forall m, resolve_mode bad_env info_mode_keys = m -> m <> "stub" -> m <> "live" ->
     nth_error bad_results 1 = Some (mk_result "info.mode" false m) /\
     In ("Invalid info mode: " ++ m ++ " (expected stub/live)") bad_errors).
Proof.
  apply (invalid_mode_recorded bad_env). vm_compute. reflexivity.
Defined.

(** C5. Whenever [run_checks] returns [(results, errors)]: the poll
    interval is [int(raw.strip())] of the first non-blank alias value, and
    300000 when no alias is set or [int] refuses the text; the fifth result
    is monitoring.poll_interval_ms with [ok = true] iff the interval is at
    least 10000; the poll error is in [errors] iff the interval is below
    10000, and it is then the last error; an unparsable value gives 300000
    and no poll error. *)
Theorem monitoring_poll_check (env : gmap string string) rs es
    (H : run_checks env = Ok (rs, es)) :
  monitoring_poll_of env =
    match pick env monitoring_poll_keys None with
    | Some raw => match py_int (py_strip raw) with Some n => n | None => 300000%Z end
    | None => 300000%Z
    end /\
  (exists r, nth_error rs 4 = Some r /\ name r = "monitoring.poll_interval_ms" /\
     (ok r = true <-> (10000 <= monitoring_poll_of env)%Z)) /\
  (In "Monitoring poll interval must be >= 10000 ms" es <->
     (monitoring_poll_of env < 10000)%Z) /\
  ((monitoring_poll_of env < 10000)%Z ->
     List.last es "" = "Monitoring poll interval must be >= 10000 ms") /\
  (match pick env monitoring_poll_keys None with
   | Some raw => py_int (py_strip raw) = None
   | None => True
   end ->
   monitoring_poll_of env = 300000%Z /\
   ~ In "Monitoring poll interval must be >= 10000 ms" es).
Proof.
  destruct (run_checks_Ok_inv env rs es H) as (c1 & c2 & E1 & E2 & Hrs & Hes).
  destruct (cred_check_ok _ _ _ _ _ _ E1) as (_ & L1 & _).
  destruct (cred_check_ok _ _ _ _ _ _ E2) as (_ & L2 & _).
  assert (Hp : monitoring_poll_of env =
    match pick env monitoring_poll_keys None with
    | Some raw => match py_int (py_strip raw) with Some n => n | None => 300000%Z end
    | None => 300000%Z
    end).
  { unfold monitoring_poll_of, parse_int.
    destruct (pick env monitoring_poll_keys None) as [raw|]; [|reflexivity].
    destruct (py_int (py_strip raw)); reflexivity. }
  assert (Hin : In monitoring_error es <-> (monitoring_poll_of env < 10000)%Z).
  { rewrite Hes, L1, L2. split.
    - intros Hi. destruct (Z.ltb_spec (monitoring_poll_of env) 10000) as [Hlt|Hge];
        [exact Hlt|].
      assert (Hg : (monitoring_poll_of env >=? 10000)%Z = true)
        by (apply Z.geb_le; exact Hge).
      rewrite Hg in Hi. clear - Hi. errors_in_cases Hi.
    - intros Hlt.
      assert (Hg : (monitoring_poll_of env >=? 10000)%Z = false)
        by (rewrite Z.geb_leb; apply Z.leb_gt; lia).
      rewrite Hg, !in_app_iff. cbn. tauto. }
  split; [exact Hp|]. split; [|split; [exact Hin|split]].
  - exists (monitoring_result env). rewrite Hrs.
    split; [reflexivity|]. split; [reflexivity|].
    unfold monitoring_result, mk_result. cbn [ok]. apply Z.geb_le.
  - intros Hlt. rewrite Hes.
    assert (Hg : (monitoring_poll_of env >=? 10000)%Z = false)
      by (rewrite Z.geb_leb; apply Z.leb_gt; lia).
    unfold errors_if at 3. rewrite Hg, !app_assoc. apply List.last_last.
  - intros Hu.
    assert (H3 : monitoring_poll_of env = 300000%Z).
    { rewrite Hp. destruct (pick env monitoring_poll_keys None) as [raw|];
        [rewrite Hu|]; reflexivity. }
    split; [exact H3|]. unfold monitoring_error in Hin. rewrite Hin, H3. lia.
Qed.

Lemma monitoring_poll_check_witness :
  monitoring_poll_of bad_env = 9999%Z /\
  (exists r, nth_error bad_results 4 = Some r /\ name r = "monitoring.poll_interval_ms" /\
     (ok r = true <-> (10000 <= monitoring_poll_of bad_env)%Z)).
Proof.
  split; [vm_compute; reflexivity|].
  refine (proj1 (proj2 (monitoring_poll_check bad_env bad_results bad_errors _))).
  vm_compute. reflexivity.
Defined.

(** C6. [pick] returns the stripped value of the first alias, in list
    order, whose stripped value is non-empty, and the default when there is
    none; every alias list of [run_checks] is a namespaced
    OPENFINCLAW_FIN_ key followed by a legacy key; so when both keys of a
    setting are set and the namespaced value is not blank, the namespaced
    value wins. *)
Theorem pick_alias_priority :
  (forall (env : gmap string string) keys default,
     pick env keys default = pick_first_nonblank_spec env keys default) /\
  Forall (fun ks => exists ns legacy, ks = [ns; legacy] /\
            String.prefix "OPENFINCLAW_FIN_" ns = true /\
            String.prefix "OPENFINCLAW_" legacy = false) alias_lists /\
  (forall (env : gmap string string) ns legacy v1 v2 default,
     In [ns; legacy] alias_lists ->
     env !! ns = Some v1 -> env !! legacy = Some v2 -> py_strip v1 <> "" ->
     pick env [ns; legacy] default = Some (py_strip v1)).
Proof.
  split; [|split].
  - intros env keys default. unfold pick_first_nonblank_spec.
    induction keys as [|k ks IH]; cbn; [reflexivity|].
    destruct (truthy (py_strip (from_option id "" (env !! k)))); [reflexivity|exact IH].
  - unfold alias_lists.
    repeat (apply List.Forall_cons; [do 2 eexists; split; [reflexivity|split; reflexivity]|]).
    apply List.Forall_nil.
  - intros env ns legacy v1 v2 default _ H1 _ Hne.
    cbn [pick]. rewrite H1. cbn [from_option id].
    apply truthy_true in Hne. rewrite Hne. reflexivity.
Qed.

Lemma pick_alias_priority_witness :
  pick prio_env ["OPENFINCLAW_FIN_EXPERT_MODE"; "FIN_EXPERT_SDK_MODE"] (Some "stub")
  = Some (py_strip " live ").
Proof.
  refine (proj2 (proj2 pick_alias_priority) prio_env
            "OPENFINCLAW_FIN_EXPERT_MODE" "FIN_EXPERT_SDK_MODE" " live " "stub"
            (Some "stub") _ _ _ _).
  - simpl. auto.
  - reflexivity.
  - reflexivity.
  - vm_compute. discriminate.
Defined.

(** [_checknetloc] never raises on a netloc without ['/']: on code points
    0..255, NFKC only yields one of [/?#@:] from that very character, and
    [_checknetloc] has removed [?#@:] before normalising. *)
Lemma nfkc_specials_all :
  forallb (fun m =>
    forallb (fun x => negb (existsb (N.eqb x) [47; 63; 35; 64; 58]%N)
                      || N.eqb x (N.of_nat m))
            (nfkc_char (ascii_of_nat m))) (seq 0 256) = true.
Proof. vm_compute. reflexivity. Qed.

Lemma nfkc_char_specials (c : ascii) (x : N) :
  In x (nfkc_char c) -> In x [47; 63; 35; 64; 58]%N -> x = N.of_nat (code c).
Proof.
  intros Hx Hs.
  pose proof (proj1 (forallb_forall _ _) nfkc_specials_all (code c)) as H.
  unfold code in H |- *. rewrite ascii_nat_embedding in H.
  assert (Hin : In (nat_of_ascii c) (seq 0 256)).
  { apply in_seq. pose proof (nat_ascii_bounded c). lia. }
  specialize (H Hin). apply (proj1 (forallb_forall _ _)) with (x := x) in H; [|exact Hx].
  apply orb_true_iff in H as [H|H].
  - exfalso. apply negb_true_iff in H.
    assert (existsb (N.eqb x) [47; 63; 35; 64; 58]%N = true) as Ht.
    { apply existsb_exists. exists x. split; [exact Hs | apply N.eqb_refl]. }
    congruence.
  - now apply N.eqb_eq in H.
Qed.

Lemma In_str_remove (c d : ascii) (s : string) :
  In c (list_ascii_of_string (str_remove d s)) ->
  In c (list_ascii_of_string s) /\ c <> d.
Proof.
  unfold str_remove. rewrite list_ascii_of_string_of_list_ascii, filter_In.
  intros [Hc Hd]. split; [exact Hc|]. intros ->. rewrite Ascii.eqb_refl in Hd. discriminate.
Qed.

Lemma checknetloc_ok (netloc : string) :
  str_contains "/" netloc = false -> checknetloc netloc = Ok tt.
Proof.
  intros Hslash. unfold checknetloc.
  destruct (_ || _); [reflexivity|]. cbv zeta.
  destruct (bool_decide _); [reflexivity|].
  destruct (existsb _ _) eqn:E; [exfalso|reflexivity].
  apply existsb_exists in E as [d [Hd Hx]]. apply bool_decide_eq_true in Hx.
  unfold nfkc in Hx. apply list_elem_of_In, in_flat_map in Hx as [c [Hc Hcx]].
  apply nfkc_char_specials in Hcx;
    [| cbn in Hd; repeat (destruct Hd as [<-|Hd]; [cbn; tauto|]); contradiction].
  assert (c = d) as <-.
  { apply Nat2N.inj in Hcx. unfold code in Hcx.
    rewrite <- (ascii_nat_embedding c), <- (ascii_nat_embedding d). congruence. }
  apply In_str_remove in Hc as [Hc H1]. apply In_str_remove in Hc as [Hc H2].
  apply In_str_remove in Hc as [Hc H3]. apply In_str_remove in Hc as [Hc H4].
  cbn in Hd. repeat (destruct Hd as [<-|Hd]; [try contradiction|]); [|contradiction].
  assert (str_contains "/" netloc = true) as Ht.
  { apply existsb_exists. exists "/"%char. split; [exact Hc | reflexivity]. }
  congruence.
Qed.

Lemma splitnetloc_no_slash (r : string) : str_contains "/" (splitnetloc r).1 = false.
Proof.
  induction r as [|c r IH]; [reflexivity|]. cbn [splitnetloc].
  destruct (str_contains c "/?#") eqn:E; [reflexivity|].
  destruct (splitnetloc r) as [a b]. cbn [fst] in IH |- *.
  unfold str_contains in IH |- *. cbn [list_ascii_of_string existsb].
  rewrite IH, orb_false_r.
  destruct (Ascii.eqb "/" c) eqn:Ec; [|reflexivity].
  apply Ascii.eqb_eq in Ec. subst c. discriminate E.
Qed.

Lemma valid_url_eq (s : string) :
  valid_url s =
    (let '(sch, nl) := url_scheme_netloc s in
     _ ← check_netloc_brackets nl; mret (truthy sch && truthy nl)).
Proof.
  unfold valid_url, urlparse, urlsplit, url_scheme_netloc.
  destruct (split_scheme _) as [sch url2].
  unfold split_netloc_checked.
  destruct (after_double_slash url2) as [r|];
    [pose proof (checknetloc_ok _ (splitnetloc_no_slash r)) as Hck;
     destruct (splitnetloc r) as [nl rest]; cbn [fst] in Hck;
     cbn -[checknetloc];
     destruct (check_netloc_brackets nl) as [[]|e]; cbn -[checknetloc];
     [rewrite Hck; cbn | reflexivity] | cbn];
  repeat match goal with
         | |- context [split_first ?c ?x] => destruct (split_first c x) as [[? ?]|]; cbn
         end;
  repeat match goal with
         | |- context [if ?b then _ else _] => destruct b; cbn
         | |- context [splitparams ?x] => destruct (splitparams x); cbn
         end; reflexivity.
Qed.

(** The URL code only raises [ValueError]. *)
Lemma check_netloc_brackets_value (nl : string) : check_netloc_brackets nl <> Raise OSError.
Proof.
  unfold check_netloc_brackets, check_bracketed_netloc, check_bracketed_host,
    ip_address, raise.
  repeat first
    [ discriminate
    | progress cbn [mbind res_bind mret res_ret]
    | match goal with
      | |- context [match ?x with _ => _ end] => destruct x
      | |- context [if ?b then _ else _] => destruct b
      end ].
Qed.

Lemma valid_url_value (s : string) : valid_url s <> Raise OSError.
Proof.
  rewrite valid_url_eq. destruct (url_scheme_netloc s) as [sch nl].
  pose proof (check_netloc_brackets_value nl) as H.
  destruct (check_netloc_brackets nl) as [[]|[|]]; cbn [mbind res_bind mret res_ret];
    first [intros E; discriminate E | contradiction].
Qed.

Lemma cred_check_value (m : string) (k e : option string) (nm err : string) :
  cred_check m k e nm err = Raise OSError -> False.
Proof.
  unfold cred_check, live_ok. destruct (String.eqb m "live"); [|discriminate].
  destruct (truthy_opt k); [|discriminate].
  destruct e as [ep|]; [|discriminate]. destruct (truthy ep); [|discriminate].
  pose proof (valid_url_value ep) as H.
  destruct (valid_url ep) as [b|[|]]; cbn [mbind res_bind mret res_ret];
    first [intros E; discriminate E | contradiction].
Qed.

(** C9 (counterexample). ["http://["] splits into the scheme "http" and
    the netloc "[", both non-empty, yet [valid_url] does not accept it:
    [urlsplit] refuses the unbalanced bracket. *)
Lemma valid_url_bracket_counterexample :
  url_scheme_netloc "http://[" = ("http", "[") /\ valid_url "http://[" <> Ok true.
Proof. split; [reflexivity | vm_compute; discriminate]. Qed.

(** C9 (amended). On strings of code points 0..255, [valid_url s] is
    [true] exactly when the scheme and netloc that [urlsplit] computes are
    both non-empty and the netloc passes [urlsplit]'s bracket checks; a
    netloc without square brackets meets no further restriction, so the
    answer is then whether scheme and netloc are non-empty ([_checknetloc]
    never raises on this alphabet). "not-a-url" is not valid, and in expert live mode with a
    key the endpoint "not-a-url" makes expert.live_credentials fail with
    the credential error. *)
Theorem valid_url_scheme_netloc :
  (forall s, valid_url s = Ok true <->
     (url_scheme_netloc s).1 <> "" /\ (url_scheme_netloc s).2 <> "" /\
     check_netloc_brackets (url_scheme_netloc s).2 = Ok tt) /\
  (forall s, str_contains "[" (url_scheme_netloc s).2 = false ->
     str_contains "]" (url_scheme_netloc s).2 = false ->
     valid_url s = Ok (truthy (url_scheme_netloc s).1 && truthy (url_scheme_netloc s).2)) /\
  valid_url "not-a-url" = Ok false /\
  match run_checks notaurl_env with
  | Ok (rs, es) =>
      nth_error rs 2 = Some (mk_result "expert.live_credentials" false
                               "apiKey+endpoint required in live mode") /\
      In expert_live_error es
  | Raise _ => False
  end.
Proof.
  split; [|split; [|split]].
  - intros s. rewrite valid_url_eq.
    destruct (url_scheme_netloc s) as [sch nl]. cbn.
    destruct (check_netloc_brackets nl) as [[]|e]; cbn.
    + rewrite <- !truthy_true. split.
      * intros Hb. injection Hb as Hb. apply andb_true_iff in Hb as [H1 H2]. auto.
      * intros (H1 & H2 & _). rewrite H1, H2. reflexivity.
    + split; [discriminate | intros (_ & _ & ?); discriminate].
  - intros s. rewrite valid_url_eq.
    destruct (url_scheme_netloc s) as [sch nl]. cbn [fst snd]. intros Ho Hc.
    unfold check_netloc_brackets. rewrite Ho, Hc. reflexivity.
  - reflexivity.
  - vm_compute. split; [reflexivity | left; reflexivity].
Qed.

Lemma valid_url_scheme_netloc_witness :
  valid_url "https://api.example.com" =
  Ok (truthy (url_scheme_netloc "https://api.example.com").1 &&
      truthy (url_scheme_netloc "https://api.example.com").2).
Proof.
  apply (proj1 (proj2 valid_url_scheme_netloc)); vm_compute; reflexivity.
Defined.

(** ** Strings *)

Lemma string_app_nil_l (a : string) : EmptyString ++ a = a.
Proof. reflexivity. Qed.

Lemma string_app_cons (x : ascii) (a b : string) : String x a ++ b = String x (a ++ b).
Proof. reflexivity. Qed.

Lemma string_app_assoc (a b c : string) : (a ++ b) ++ c = a ++ (b ++ c).
Proof.
  induction a as [|x a IH]; [reflexivity|].
  rewrite !string_app_cons, IH. reflexivity.
Qed.

Lemma string_app_nil_r (a : string) : a ++ EmptyString = a.
Proof. induction a as [|x a IH]; [reflexivity|]. rewrite string_app_cons, IH. reflexivity. Qed.

Lemma str_rev_snoc (s : string) (c : ascii) :
  str_rev (s ++ String c EmptyString) = String c (str_rev s).
Proof.
  induction s as [|d s IH]; [reflexivity|].
  rewrite string_app_cons. cbn [str_rev]. rewrite IH. reflexivity.
Qed.

Lemma str_rev_app (a b : string) : str_rev (a ++ b) = str_rev b ++ str_rev a.
Proof.
  induction a as [|x a IH].
  - rewrite string_app_nil_l. cbn [str_rev]. now rewrite string_app_nil_r.
  - rewrite string_app_cons. cbn [str_rev]. now rewrite IH, string_app_assoc.
Qed.

Lemma str_rev_involutive (s : string) : str_rev (str_rev s) = s.
Proof.
  induction s as [|x s IH]; [reflexivity|].
  cbn [str_rev]. now rewrite str_rev_snoc, IH.
Qed.

Lemma las_app (a b : string) :
  list_ascii_of_string (a ++ b) = app (list_ascii_of_string a) (list_ascii_of_string b).
Proof.
  induction a as [|x a IH]; [reflexivity|].
  rewrite string_app_cons. cbn [list_ascii_of_string]. now rewrite IH.
Qed.

Lemma las_rev (s : string) : list_ascii_of_string (str_rev s) = rev (list_ascii_of_string s).
Proof.
  induction s as [|x s IH]; [reflexivity|].
  cbn [str_rev list_ascii_of_string rev]. now rewrite las_app, IH.
Qed.

Lemma str_contains_In (c : ascii) (s : string) :
  str_contains c s = true <-> In c (list_ascii_of_string s).
Proof.
  unfold str_contains. rewrite existsb_exists. split.
  - intros (x & Hx & E). apply Ascii.eqb_eq in E. now subst.
  - intros H. exists c. split; [exact H | apply Ascii.eqb_refl].
Qed.

Lemma str_all_In (p : ascii -> bool) (s : string) :
  str_all p s = true <-> (forall c, In c (list_ascii_of_string s) -> p c = true).
Proof. unfold str_all. apply forallb_forall. Qed.

Lemma lstrip_suffix (p : ascii -> bool) (s : string) :
  exists t, s = t ++ py_lstrip_by p s.
Proof.
  induction s as [|c s IH]; cbn.
  - now exists EmptyString.
  - destruct (p c).
    + destruct IH as [t Ht]. exists (String c t). rewrite string_app_cons. now rewrite <- Ht.
    + now exists EmptyString.
Qed.

Lemma rstrip_prefix (p : ascii -> bool) (s : string) :
  exists t, s = py_rstrip_by p s ++ t.
Proof.
  unfold py_rstrip_by. destruct (lstrip_suffix p (str_rev s)) as [t Ht].
  exists (str_rev t). rewrite <- str_rev_app, <- Ht. now rewrite str_rev_involutive.
Qed.

Lemma lstrip_head (p : ascii -> bool) (s : string) :
  match py_lstrip_by p s with String c _ => p c = false | EmptyString => True end.
Proof.
  induction s as [|c s IH]; cbn; [exact I|].
  destruct (p c) eqn:Hc; [exact IH | exact Hc].
Qed.

Lemma lstrip_id (p : ascii -> bool) (s : string) :
  match s with String c _ => p c = false | EmptyString => True end ->
  py_lstrip_by p s = s.
Proof. destruct s as [|c s]; cbn; [reflexivity|]. intros ->. reflexivity. Qed.

Lemma rstrip_id (p : ascii -> bool) (s : string) :
  match str_rev s with String c _ => p c = false | EmptyString => True end ->
  py_rstrip_by p s = s.
Proof. intros H. unfold py_rstrip_by. rewrite (lstrip_id p _ H). apply str_rev_involutive. Qed.

Lemma rstrip_last (p : ascii -> bool) (s : string) :
  match str_rev (py_rstrip_by p s) with String c _ => p c = false | EmptyString => True end.
Proof. unfold py_rstrip_by. rewrite str_rev_involutive. apply lstrip_head. Qed.

Lemma rstrip_idem (p : ascii -> bool) (s : string) :
  py_rstrip_by p (py_rstrip_by p s) = py_rstrip_by p s.
Proof. apply rstrip_id, rstrip_last. Qed.

(** Right-stripping keeps a first character that is not stripped. *)
Lemma rstrip_head (p : ascii -> bool) (s : string) :
  match s with String c _ => p c = false | EmptyString => True end ->
  match py_rstrip_by p s with String c _ => p c = false | EmptyString => True end.
Proof.
  intros H. destruct (rstrip_prefix p s) as [t Ht].
  destruct (py_rstrip_by p s) as [|c r] eqn:E; [exact I|].
  rewrite Ht in H. exact H.
Qed.

Lemma rstrip_snoc_stripped (p : ascii -> bool) (s : string) (c : ascii) :
  p c = true -> py_rstrip_by p (s ++ String c EmptyString) = py_rstrip_by p s.
Proof. intros Hc. unfold py_rstrip_by. rewrite str_rev_snoc. cbn [py_lstrip_by]. now rewrite Hc. Qed.

Lemma strip_by_edges (p : ascii -> bool) (s : string) :
  match s with String c _ => p c = false | EmptyString => True end ->
  match str_rev s with String c _ => p c = false | EmptyString => True end ->
  py_rstrip_by p (py_lstrip_by p s) = s.
Proof. intros H1 H2. rewrite (lstrip_id p s H1). exact (rstrip_id p s H2). Qed.

Lemma strip_by_none (p : ascii -> bool) (s : string) :
  (forall c, In c (list_ascii_of_string s) -> p c = false) ->
  py_rstrip_by p (py_lstrip_by p s) = s.
Proof.
  intros H. apply strip_by_edges.
  - destruct s as [|c s]; [exact I|]. apply H. now left.
  - destruct (str_rev s) as [|c r] eqn:E; [exact I|]. apply H.
    apply in_rev. rewrite <- las_rev, E. now left.
Qed.

Lemma strip_by_infix (p : ascii -> bool) (s : string) :
  exists a b, s = a ++ py_rstrip_by p (py_lstrip_by p s) ++ b.
Proof.
  destruct (lstrip_suffix p s) as [a Ha].
  destruct (rstrip_prefix p (py_lstrip_by p s)) as [b Hb].
  exists a, b. rewrite <- Hb. exact Ha.
Qed.

Lemma In_infix (a s b : string) (c : ascii) :
  In c (list_ascii_of_string s) -> In c (list_ascii_of_string (a ++ s ++ b)).
Proof. rewrite !las_app, !in_app_iff. tauto. Qed.

Lemma In_strip_by (p : ascii -> bool) (s : string) (c : ascii) :
  In c (list_ascii_of_string (py_rstrip_by p (py_lstrip_by p s))) ->
  In c (list_ascii_of_string s).
Proof.
  destruct (strip_by_infix p s) as (a & b & E). intros H.
  rewrite E. now apply In_infix.
Qed.

Lemma py_strip_idem (s : string) : py_strip (py_strip s) = py_strip s.
Proof.
  unfold py_strip.
  rewrite (lstrip_id _ (py_rstrip_by _ _) (rstrip_head _ _ (lstrip_head _ s))).
  apply rstrip_idem.
Qed.

Lemma split_first_Some (c : ascii) (s a b : string) :
  split_first c s = Some (a, b) ->
  s = a ++ String c b /\ ~ In c (list_ascii_of_string a).
Proof.
  revert a b. induction s as [|d s IH]; cbn; intros a b H; [discriminate|].
  destruct (Ascii.eqb c d) eqn:E.
  - apply Ascii.eqb_eq in E. subst. injection H as <- <-. cbn. split; [reflexivity | tauto].
  - destruct (split_first c s) as [[a' b']|] eqn:E2; [|discriminate].
    injection H as <- <-. destruct (IH a' b' eq_refl) as [-> Hn]. cbn.
    split; [reflexivity|].
    intros [Hd|Hi]; [subst; rewrite Ascii.eqb_refl in E; discriminate | tauto].
Qed.

Lemma split_first_app (c : ascii) (a b : string) :
  ~ In c (list_ascii_of_string a) -> split_first c (a ++ String c b) = Some (a, b).
Proof.
  induction a as [|d a IH]; rewrite ?string_app_nil_l, ?string_app_cons;
    cbn [split_first]; intros Hn.
  - now rewrite Ascii.eqb_refl.
  - destruct (Ascii.eqb c d) eqn:E; [apply Ascii.eqb_eq in E; subst; cbn in Hn; tauto|].
    rewrite IH; [reflexivity | cbn in Hn; tauto].
Qed.

(** A prefix of [k ++ c :: rest] lies within [k] or reaches [c]. *)
Lemma prefix_app_char (p k rest : string) (c : ascii) :
  String.prefix p (k ++ String c rest) = true ->
  (forall x, In x (list_ascii_of_string p) -> In x (list_ascii_of_string k)) \/
  In c (list_ascii_of_string p).
Proof.
  revert p. induction k as [|d k IH]; intros [|a p] H;
    rewrite ?string_app_nil_l, ?string_app_cons in H; cbn in *;
    try solve [left; intros x []].
  - destruct (ascii_dec a c); [subst; right; now left | discriminate].
  - destruct (ascii_dec a d) as [<-|]; [|discriminate].
    destruct (IH p H) as [Hs|Hc]; [left | right].
    + intros x [<-|Hx]; [now left | right; auto].
    + now right.
Qed.

Lemma env_key_char_facts (c : ascii) :
  is_env_key_char c = true ->
  py_isspace c = false /\ is_line_break c = false /\
  c <> "="%char /\ c <> "#"%char /\ c <> " "%char.
Proof.
  destruct c as [[] [] [] [] [] [] [] []]; vm_compute; intros H;
    try discriminate; repeat split; discriminate.
Qed.

Lemma edges_not_spec (p : ascii -> bool) (s : string) :
  edges_not p s = true ->
  match s with String c _ => p c = false | EmptyString => True end /\
  match str_rev s with String c _ => p c = false | EmptyString => True end.
Proof.
  unfold edges_not. intros H. apply andb_true_iff in H as [H1 H2]. split.
  - destruct s; [exact I|]. now apply negb_true_iff.
  - destruct (str_rev s); [exact I|]. now apply negb_true_iff.
Qed.

Lemma edges_not_weaken (p p' : ascii -> bool) (s : string) :
  (forall c, p' c = true -> p c = true) ->
  edges_not p s = true -> edges_not p' s = true.
Proof.
  intros Hp. unfold edges_not.
  assert (Hn : forall c, negb (p c) = true -> negb (p' c) = true).
  { intros c. destruct (p' c) eqn:E; [now rewrite (Hp c E) | reflexivity]. }
  rewrite !andb_true_iff. intros [H1 H2]. split.
  - destruct s; [reflexivity | auto].
  - destruct (str_rev s); [reflexivity | auto].
Qed.

Lemma edges_not_strip_by (p : ascii -> bool) (s : string) :
  edges_not p (py_rstrip_by p (py_lstrip_by p s)) = true.
Proof.
  unfold edges_not.
  pose proof (rstrip_head p _ (lstrip_head p s)) as H1.
  pose proof (rstrip_last p (py_lstrip_by p s)) as H2.
  destruct (py_rstrip_by p (py_lstrip_by p s)) as [|c r]; [reflexivity|].
  rewrite H1. cbn [negb andb].
  destruct (str_rev (String c r)) as [|d t]; [reflexivity|]. now rewrite H2.
Qed.

(** ** [parse_env_file] *)

Lemma find_app {A} (f : A -> bool) (l1 l2 : list A) :
  List.find f (app l1 l2) =
    match List.find f l1 with Some x => Some x | None => List.find f l2 end.
Proof.
  induction l1 as [|x l1 IH]; cbn; [reflexivity|].
  destruct (f x); [reflexivity | exact IH].
Qed.

Lemma lookup_last_cons (k : string) (kv : string * string) (kvs : list (string * string)) :
  lookup_last k (kv :: kvs) =
    match lookup_last k kvs with
    | Some v => Some v
    | None => if String.eqb kv.1 k then Some kv.2 else None
    end.
Proof.
  unfold lookup_last. cbn [rev]. rewrite find_app.
  destruct (List.find _ (rev kvs)); cbn; [reflexivity|].
  destruct (String.eqb kv.1 k); reflexivity.
Qed.

Lemma lookup_last_In (k v : string) (kvs : list (string * string)) :
  lookup_last k kvs = Some v -> In (k, v) kvs.
Proof.
  unfold lookup_last.
  destruct (List.find _ (rev kvs)) as [[k' v']|] eqn:E; cbn; [|discriminate].
  intros [= <-]. apply find_some in E as [Hin Hk]. cbn in Hk.
  apply String.eqb_eq in Hk. subst. rewrite in_rev. exact Hin.
Qed.

(** Each line of the file overwrites what earlier lines set for its key. *)
Lemma env_lines_into_lookup (lines : list string) (m : gmap string string) (k : string) :
  env_lines_into lines m !! k =
    match lookup_last k (env_entries lines) with Some v => Some v | None => m !! k end.
Proof.
  revert m. induction lines as [|l ls IH]; intros m; [reflexivity|].
  change (env_lines_into (l :: ls) m) with
    (env_lines_into ls (match env_line_entry l with
                        | Some (key, value) => <[key:=value]> m
                        | None => m end)).
  rewrite IH. cbn [env_entries].
  destruct (env_line_entry l) as [[k' v']|]; [|reflexivity].
  rewrite lookup_last_cons. destruct (lookup_last k (env_entries ls)); [reflexivity|].
  cbn [fst snd]. destruct (String.eqb k' k) eqn:E.
  - apply String.eqb_eq in E. subst. apply lookup_insert_eq.
  - apply String.eqb_neq in E. apply lookup_insert_ne. exact E.
Qed.

Lemma env_entries_In (lines : list string) (kv : string * string) :
  In kv (env_entries lines) -> exists l, In l lines /\ env_line_entry l = Some kv.
Proof.
  induction lines as [|l ls IH]; cbn [env_entries]; [intros []|].
  intros H. destruct (env_line_entry l) as [e|] eqn:E.
  - destruct H as [<-|H]; [exists l; split; [now left | exact E]|].
    destruct (IH H) as (l' & ? & ?). exists l'. split; [now right | assumption].
  - destruct (IH H) as (l' & ? & ?). exists l'. split; [now right | assumption].
Qed.

Lemma env_line_entry_shape (l k v : string) :
  env_line_entry l = Some (k, v) ->
  k <> "" /\ str_contains "=" k = false /\ py_strip k = k /\
  edges_not (Ascii.eqb dquote) v = true.
Proof.
  unfold env_line_entry. cbv zeta.
  destruct (negb (truthy (py_strip l)) || starts_with "#" (py_strip l)); [discriminate|].
  destruct (split_first "=" _) as [[key0 value0]|] eqn:Hs; [|discriminate].
  destruct (truthy (py_strip key0)) eqn:Hk; [|discriminate].
  intros [= <- <-].
  apply split_first_Some in Hs as [_ Hn].
  split; [apply truthy_true; exact Hk|].
  split.
  { destruct (str_contains "=" (py_strip key0)) eqn:E; [|reflexivity].
    apply str_contains_In, In_strip_by in E. contradiction. }
  split; [apply py_strip_idem|].
  apply edges_not_strip_by.
Qed.

Lemma env_key_ok_spec (k : string) :
  env_key_ok k = true ->
  k <> "" /\ forall c, In c (list_ascii_of_string k) -> is_env_key_char c = true.
Proof. unfold env_key_ok. rewrite andb_true_iff, truthy_true, str_all_In. tauto. Qed.

Lemma no_line_break_app (a b : string) :
  no_line_break (a ++ b) = no_line_break a && no_line_break b.
Proof. unfold no_line_break, str_all. rewrite las_app. apply forallb_app. Qed.

Lemma no_line_break_cons (c : ascii) (s : string) :
  no_line_break (String c s) = negb (is_line_break c) && no_line_break s.
Proof. reflexivity. Qed.

Lemma no_line_break_key (k : string) : env_key_ok k = true -> no_line_break k = true.
Proof.
  intros [_ H]%env_key_ok_spec. apply str_all_In. intros c Hc.
  destruct (env_key_char_facts c (H c Hc)) as (_ & -> & _). reflexivity.
Qed.

(** A line [KEY=rest] with a well-formed key: the key is [KEY] and the
    value is [rest] cleaned as [parse_env_file] cleans it. *)
Lemma env_line_entry_key (k w : string) :
  env_key_ok k = true ->
  match str_rev w with String c _ => py_isspace c = false | EmptyString => True end ->
  env_line_entry (k ++ String "=" w) =
    Some (k, py_strip_char dquote (py_strip_char "'" (py_strip w))).
Proof.
  intros Hk Hw. destruct (env_key_ok_spec k Hk) as [Hne Hc].
  destruct k as [|c0 k']; [congruence|].
  assert (Hc0 : is_env_key_char c0 = true) by (apply Hc; now left).
  destruct (env_key_char_facts c0 Hc0) as (Hs0 & _ & _ & Hh0 & _).
  assert (Hline : py_strip (String c0 k' ++ String "=" w) = String c0 k' ++ String "=" w).
  { unfold py_strip. apply strip_by_edges.
    - exact Hs0.
    - rewrite str_rev_app. cbn [str_rev].
      destruct (str_rev w) as [|c r]; [reflexivity | exact Hw]. }
  assert (Hkey : py_strip (String c0 k') = String c0 k').
  { unfold py_strip. apply strip_by_none. intros c Hin.
    now destruct (env_key_char_facts c (Hc c Hin)). }
  assert (Hpre : String.prefix "export " (String c0 k' ++ String "=" w) = false).
  { destruct (String.prefix _ _) eqn:Hp; [|reflexivity].
    apply prefix_app_char in Hp as [Hp|Hp]; cbn in Hp.
    - specialize (Hp " "%char ltac:(tauto)). apply Hc in Hp.
      destruct (env_key_char_facts _ Hp) as (_ & _ & _ & _ & Hsp). congruence.
    - intuition discriminate. }
  assert (Hsplit : split_first "=" (String c0 k' ++ String "=" w) = Some (String c0 k', w)).
  { apply split_first_app. intros Hin. apply Hc in Hin.
    destruct (env_key_char_facts _ Hin) as (_ & _ & He & _). congruence. }
  unfold env_line_entry. cbv zeta. rewrite Hline, Hpre, Hsplit.
  rewrite string_app_cons. cbn [truthy negb String.eqb orb starts_with].
  rewrite (proj2 (Ascii.eqb_neq "#" c0)) by congruence.
  rewrite Hkey. reflexivity.
Qed.

Lemma env_line_entry_quoted (k v : string) :
  env_key_ok k = true -> edges_not (Ascii.eqb dquote) v = true ->
  env_line_entry (quoted_line (k, v)) = Some (k, v).
Proof.
  intros Hk Hv. unfold quoted_line; cbn [fst snd].
  assert (Hw : str_rev (String dquote (v ++ String dquote EmptyString)) =
               String dquote (str_rev v ++ String dquote EmptyString)).
  { cbn [str_rev]. rewrite str_rev_snoc. reflexivity. }
  rewrite env_line_entry_key; [|exact Hk | rewrite Hw; reflexivity].
  do 2 f_equal.
  assert (E1 : py_strip (String dquote (v ++ String dquote EmptyString)) =
               String dquote (v ++ String dquote EmptyString)).
  { unfold py_strip. apply strip_by_edges; [reflexivity | rewrite Hw; reflexivity]. }
  assert (E2 : py_strip_char "'" (String dquote (v ++ String dquote EmptyString)) =
               String dquote (v ++ String dquote EmptyString)).
  { unfold py_strip_char. apply strip_by_edges; [reflexivity | rewrite Hw; reflexivity]. }
  rewrite E1, E2. unfold py_strip_char. cbn [py_lstrip_by]. rewrite Ascii.eqb_refl.
  apply edges_not_spec in Hv as [Hv1 Hv2].
  destruct v as [|d v']; [reflexivity|].
  rewrite string_app_cons, lstrip_id by exact Hv1. rewrite <- string_app_cons.
  rewrite rstrip_snoc_stripped by apply Ascii.eqb_refl.
  apply rstrip_id. exact Hv2.
Qed.

Lemma env_line_entry_plain (k v : string) :
  env_key_ok k = true -> plain_value_ok v = true ->
  env_line_entry (plain_line (k, v)) = Some (k, v).
Proof.
  intros Hk Hv. unfold plain_line; cbn [fst snd].
  apply andb_true_iff in Hv as [_ Hv].
  assert (Hsp : edges_not py_isspace v = true).
  { refine (edges_not_weaken _ _ _ _ Hv). intros c ->. reflexivity. }
  assert (Hq1 : edges_not (Ascii.eqb "'") v = true).
  { refine (edges_not_weaken _ _ _ _ Hv). intros c E.
    apply Ascii.eqb_eq in E. subst. reflexivity. }
  assert (Hq2 : edges_not (Ascii.eqb dquote) v = true).
  { refine (edges_not_weaken _ _ _ _ Hv). intros c E.
    apply Ascii.eqb_eq in E. subst. reflexivity. }
  apply edges_not_spec in Hsp as [Hs1 Hs2].
  apply edges_not_spec in Hq1 as [Hq11 Hq12].
  apply edges_not_spec in Hq2 as [Hq21 Hq22].
  rewrite env_line_entry_key by assumption.
  unfold py_strip, py_strip_char.
  rewrite (strip_by_edges py_isspace v Hs1 Hs2), (strip_by_edges _ v Hq11 Hq12),
    (strip_by_edges _ v Hq21 Hq22).
  reflexivity.
Qed.

Lemma splitlines_line (l rest : string) :
  no_line_break l = true -> splitlines (l ++ newline ++ rest) = l :: splitlines rest.
Proof.
  induction l as [|c l IH]; intros H; [reflexivity|].
  rewrite no_line_break_cons in H. apply andb_true_iff in H as [Hc Hl].
  apply negb_true_iff in Hc.
  rewrite string_app_cons. cbn [splitlines]. rewrite Hc, (IH Hl). reflexivity.
Qed.

Lemma env_entries_text (line : string * string -> string) (kvs : list (string * string)) :
  (forall kv, In kv kvs -> no_line_break (line kv) = true /\ env_line_entry (line kv) = Some kv) ->
  env_entries (splitlines (env_text line kvs)) = kvs.
Proof.
  induction kvs as [|kv kvs IH]; intros H; [reflexivity|].
  cbn [env_text]. destruct (H kv (or_introl eq_refl)) as [Hn He].
  rewrite (splitlines_line _ _ Hn). cbn [env_entries]. rewrite He, IH; [reflexivity|].
  intros kv' Hin. apply H. now right.
Qed.

Lemma parse_env_file_text_lookup (line : string * string -> string)
    (kvs : list (string * string)) (k : string) :
  (forall kv, In kv kvs -> no_line_break (line kv) = true /\ env_line_entry (line kv) = Some kv) ->
  parse_env_file (Some (env_text line kvs)) !! k = lookup_last k kvs.
Proof.
  intros H. cbn [parse_env_file]. rewrite env_lines_into_lookup, lookup_empty.
  rewrite (env_entries_text line kvs H). destruct (lookup_last k kvs); reflexivity.
Qed.

(** ** [run_checks] and [pick] *)

Lemma pick_ext (env1 env2 : gmap string string) (keys : list string) (d : option string) :
  (forall k, In k keys -> env1 !! k = env2 !! k) -> pick env1 keys d = pick env2 keys d.
Proof.
  induction keys as [|k ks IH]; intros H; cbn [pick]; [reflexivity|].
  rewrite (H k (or_introl eq_refl)), IH; [reflexivity|].
  intros k' Hk'. apply H. now right.
Qed.

(** [pick] returns the default or the stripped value of one of its keys. *)
Lemma pick_In (env : gmap string string) (keys : list string) (d : option string) (v : string) :
  pick env keys d = Some v ->
  d = Some v \/ exists k raw, In k keys /\ env !! k = Some raw /\ v = py_strip raw.
Proof.
  induction keys as [|k ks IH]; cbn [pick]; [now left|].
  destruct (truthy (py_strip (from_option id "" (env !! k)))) eqn:E.
  - intros [= <-]. right. destruct (env !! k) as [raw|] eqn:Ek; [|discriminate].
    exists k, raw. split; [now left | split; [exact Ek | reflexivity]].
  - intros H. destruct (IH H) as [Hd|(k' & raw & Hin & Hk & ->)]; [now left|].
    right. exists k', raw. split; [now right | split; [exact Hk | reflexivity]].
Qed.

Lemma run_checks_ext (env1 env2 : gmap string string) :
  (forall k, In k (concat alias_lists) -> env1 !! k = env2 !! k) ->
  run_checks env1 = run_checks env2.
Proof.
  intros H.
  assert (P : forall keys d, In keys alias_lists -> pick env1 keys d = pick env2 keys d).
  { intros keys d Hk. apply pick_ext. intros k Hin. apply H. apply in_concat.
    exists keys. auto. }
  unfold run_checks, resolve_mode, monitoring_enabled_of, monitoring_poll_of.
  rewrite !(P expert_mode_keys), !(P info_mode_keys), !(P expert_key_keys),
    !(P expert_endpoint_keys), !(P info_key_keys), !(P info_endpoint_keys),
    !(P monitoring_auto_evaluate_keys), !(P monitoring_poll_keys)
    by (cbn; tauto).
  reflexivity.
Qed.

Lemma live_ok_raise (k e : option string) :
  live_ok k e = Raise ValueError <->
  truthy_opt k = true /\
  exists ep, e = Some ep /\ ep <> "" /\ valid_url ep = Raise ValueError.
Proof.
  unfold live_ok. destruct (truthy_opt k);
    [|split; [discriminate | intros [? _]; discriminate]].
  destruct e as [ep|]; [|split; [discriminate | intros (_ & ep & ? & _); discriminate]].
  destruct (truthy ep) eqn:E.
  - split.
    + intros H. split; [reflexivity|]. exists ep.
      split; [reflexivity|]. split; [now apply truthy_true | exact H].
    + intros (_ & ep' & [= <-] & _ & H). exact H.
  - split; [discriminate|]. intros (_ & ep' & [= <-] & Hne & _).
    apply truthy_true in Hne. congruence.
Qed.

Lemma cred_check_raise (m : string) (k e : option string) (nm err : string) :
  cred_check m k e nm err = Raise ValueError <-> m = "live" /\ live_ok k e = Raise ValueError.
Proof.
  unfold cred_check. destruct (String.eqb m "live") eqn:Em.
  - apply String.eqb_eq in Em. destruct (live_ok k e) as [b|[|]]; cbn.
    + split; [discriminate | intros [_ H]; discriminate].
    + tauto.
    + split; [discriminate | intros [_ H]; discriminate].
  - apply String.eqb_neq in Em. split; [discriminate | intros [H _]; contradiction].
Qed.

Lemma run_checks_value (env : gmap string string) : run_checks env = Raise OSError -> False.
Proof.
  rewrite run_checks_unfold. cbv zeta.
  destruct (cred_check _ _ _ "expert.live_credentials" _) as [c1|e1] eqn:E1;
    cbn [mbind res_bind];
    [destruct (cred_check _ _ _ "info.live_credentials" _) as [c2|e2] eqn:E2;
     cbn [mbind res_bind mret res_ret] |].
  - discriminate.
  - intros [= ->]. exact (cred_check_value _ _ _ _ _ E2).
  - intros [= ->]. exact (cred_check_value _ _ _ _ _ E1).
Qed.

Lemma run_checks_raise (env : gmap string string) :
  run_checks env = Raise ValueError <->
  cred_check (resolve_mode env expert_mode_keys) (pick env expert_key_keys None)
    (pick env expert_endpoint_keys None) "expert.live_credentials" expert_live_error
    = Raise ValueError \/
  cred_check (resolve_mode env info_mode_keys) (pick env info_key_keys None)
    (pick env info_endpoint_keys None) "info.live_credentials" info_live_error
    = Raise ValueError.
Proof.
  rewrite run_checks_unfold. cbv zeta.
  destruct (cred_check _ _ _ "expert.live_credentials" _) as [c1|[|]] eqn:E1;
    cbn [mbind res_bind];
    [destruct (cred_check _ _ _ "info.live_credentials" _) as [c2|[|]] eqn:E2;
     cbn [mbind res_bind mret res_ret] | |].
  - split; [discriminate | intros [H|H]; discriminate].
  - split; [intros _; now right | reflexivity].
  - exfalso. exact (cred_check_value _ _ _ _ _ E2).
  - split; [intros _; now left | reflexivity].
  - exfalso. exact (cred_check_value _ _ _ _ _ E1).
Qed.

(** ** [valid_url] *)

Lemma In_lstrip (p : ascii -> bool) (s : string) (c : ascii) :
  In c (list_ascii_of_string (py_lstrip_by p s)) -> In c (list_ascii_of_string s).
Proof.
  destruct (lstrip_suffix p s) as [t Ht]. intros H.
  rewrite Ht, las_app. apply in_or_app. now right.
Qed.

Lemma In_remove_unsafe (s : string) (c : ascii) :
  In c (list_ascii_of_string (remove_unsafe s)) -> In c (list_ascii_of_string s).
Proof.
  unfold remove_unsafe. rewrite list_ascii_of_string_of_list_ascii.
  intros H. apply list_elem_of_In in H. apply list_elem_of_filter in H as [_ H].
  apply list_elem_of_In. exact H.
Qed.

Lemma In_split_scheme (u : string) (c : ascii) :
  In c (list_ascii_of_string (split_scheme u).2) -> In c (list_ascii_of_string u).
Proof.
  unfold split_scheme.
  destruct (split_first ":" u) as [[pre post]|] eqn:E; [|cbn [snd]; auto].
  destruct pre as [|c0 pre']; [cbn [snd]; auto|].
  destruct (is_ascii_alpha c0 && str_all is_scheme_char (String c0 pre'));
    cbn [snd]; [|auto].
  apply split_first_Some in E as [-> _]. intros H.
  rewrite las_app. apply in_or_app. right. cbn. now right.
Qed.

Lemma In_after_double_slash (u r : string) (c : ascii) :
  after_double_slash u = Some r ->
  In c (list_ascii_of_string r) -> In c (list_ascii_of_string u).
Proof.
  unfold after_double_slash. destruct u as [|a [|b r']]; try discriminate.
  destruct (Ascii.eqb a "/" && Ascii.eqb b "/"); [|discriminate].
  intros [= <-] H. cbn. auto.
Qed.

Lemma In_splitnetloc (r : string) (c : ascii) :
  In c (list_ascii_of_string (splitnetloc r).1) -> In c (list_ascii_of_string r).
Proof.
  induction r as [|d r IH]; cbn [splitnetloc]; [auto|].
  destruct (str_contains d "/?#"); [cbn; tauto|].
  destruct (splitnetloc r) as [a b]. cbn. intros [<-|H]; [now left | right; apply IH; exact H].
Qed.

Lemma In_url_netloc (s : string) (c : ascii) :
  In c (list_ascii_of_string (url_scheme_netloc s).2) -> In c (list_ascii_of_string s).
Proof.
  unfold url_scheme_netloc.
  pose proof (In_split_scheme
    (remove_unsafe (py_lstrip_by whatwg_c0_control_or_space s)) c) as Hs.
  destruct (split_scheme _) as [sch url2]. cbn [snd] in *.
  destruct (after_double_slash url2) as [r|] eqn:E; cbn [snd]; [|cbn; intros []].
  intros H. apply In_splitnetloc, (In_after_double_slash _ _ _ E), Hs,
    In_remove_unsafe, In_lstrip in H. exact H.
Qed.

Lemma not_contains_sub (c : ascii) (s t : string) :
  (forall x, In x (list_ascii_of_string t) -> In x (list_ascii_of_string s)) ->
  str_contains c s = false -> str_contains c t = false.
Proof.
  intros Hsub Hs. destruct (str_contains c t) eqn:E; [|reflexivity].
  apply str_contains_In, Hsub, str_contains_In in E. congruence.
Qed.

Lemma valid_url_ok_no_brackets (s : string) :
  str_contains "[" s = false -> str_contains "]" s = false ->
  valid_url s = Ok (truthy (url_scheme_netloc s).1 && truthy (url_scheme_netloc s).2).
Proof.
  intros Ho Hc. rewrite valid_url_eq.
  pose proof (not_contains_sub _ _ _ (In_url_netloc s) Ho) as Ho'.
  pose proof (not_contains_sub _ _ _ (In_url_netloc s) Hc) as Hc'.
  destruct (url_scheme_netloc s) as [sch nl]. cbn [fst snd] in *.
  unfold check_netloc_brackets. rewrite Ho', Hc'. reflexivity.
Qed.

(** ** [main] *)


(** ** Further properties of the code *)

(** [parse_env_file]: a key maps to the value of the last line that
    assigns it; earlier assignments are overwritten, and lines that make no
    entry (blank, comment, no [=], empty key) change nothing. *)
Theorem parse_env_file_last_wins (text k : string) :
  parse_env_file (Some text) !! k = lookup_last k (env_entries (splitlines text)).
Proof.
  cbn [parse_env_file]. rewrite env_lines_into_lookup, lookup_empty.
  destruct (lookup_last _ _); reflexivity.
Qed.

(** [parse_env_file]: every key it loads is non-empty, has no [=] and no
    surrounding whitespace, and every value neither begins nor ends with a
    double quote. *)
Theorem parse_env_file_keys_values (file : option string) (k v : string) :
  parse_env_file file !! k = Some v ->
  k <> "" /\ str_contains "=" k = false /\ py_strip k = k /\
  edges_not (Ascii.eqb dquote) v = true.
Proof.
  destruct file as [text|]; cbn [parse_env_file];
    [|rewrite lookup_empty; discriminate].
  rewrite env_lines_into_lookup, lookup_empty.
  destruct (lookup_last k _) as [v'|] eqn:E; [|discriminate]. intros [= <-].
  apply lookup_last_In, env_entries_In in E as (l & _ & El).
  exact (env_line_entry_shape l k v' El).
Qed.

Lemma parse_env_file_keys_values_witness :
  parse_env_file (Some " export FOO = bar ") !! "FOO" = Some "bar" /\
  ("FOO" <> "" /\ str_contains "=" "FOO" = false /\ py_strip "FOO" = "FOO" /\
   edges_not (Ascii.eqb dquote) "bar" = true).
Proof.
  split; [vm_compute; reflexivity|].
  apply (parse_env_file_keys_values (Some " export FOO = bar ") "FOO" "bar").
  vm_compute. reflexivity.
Defined.

(** [parse_env_file] reads back a file written as lines [KEY="value"]:
    with keys of letters, digits and [_], and values without line breaks
    that neither begin nor end with a double quote, each key gets the value
    of its last line, whitespace, [=], [#] and single quotes inside the
    quotes included. *)
Theorem parse_env_file_quoted_round_trip (kvs : list (string * string)) (k : string) :
  Forall (fun kv => env_key_ok kv.1 = true /\ quoted_value_ok kv.2 = true) kvs ->
  parse_env_file (Some (env_text quoted_line kvs)) !! k = lookup_last k kvs.
Proof.
  intros H. apply parse_env_file_text_lookup. intros [k' v] Hin.
  rewrite List.Forall_forall in H. destruct (H _ Hin) as [Hk Hv]. cbn [fst snd] in Hk, Hv.
  apply andb_true_iff in Hv as [Hn He]. split.
  - unfold quoted_line. cbn [fst snd].
    rewrite no_line_break_app, (no_line_break_key k' Hk), !no_line_break_cons,
      no_line_break_app, Hn, no_line_break_cons. reflexivity.
  - exact (env_line_entry_quoted k' v Hk He).
Qed.

Lemma parse_env_file_quoted_round_trip_witness :
  Forall (fun kv => env_key_ok kv.1 = true /\ quoted_value_ok kv.2 = true)
    [("A", " x = #y "); ("B", ""); ("A", "'z'")] /\
  parse_env_file (Some (env_text quoted_line
    [("A", " x = #y "); ("B", ""); ("A", "'z'")])) !! "A" =
  lookup_last "A" [("A", " x = #y "); ("B", ""); ("A", "'z'")].
Proof.
  assert (H : Forall (fun kv => env_key_ok kv.1 = true /\ quoted_value_ok kv.2 = true)
    [("A", " x = #y "); ("B", ""); ("A", "'z'")]) by (repeat constructor).
  split; [exact H | exact (parse_env_file_quoted_round_trip _ "A" H)].
Defined.

(** [parse_env_file] reads back a file written as lines [KEY=value]: with
    keys of letters, digits and [_], and values without line breaks whose
    first and last characters are neither whitespace nor a quote, each key
    gets the value of its last line ([=] and [#] in the value included). *)
Theorem parse_env_file_plain_round_trip (kvs : list (string * string)) (k : string) :
  Forall (fun kv => env_key_ok kv.1 = true /\ plain_value_ok kv.2 = true) kvs ->
  parse_env_file (Some (env_text plain_line kvs)) !! k = lookup_last k kvs.
Proof.
  intros H. apply parse_env_file_text_lookup. intros [k' v] Hin.
  rewrite List.Forall_forall in H. destruct (H _ Hin) as [Hk Hv]. cbn [fst snd] in Hk, Hv.
  split.
  - unfold plain_line. cbn [fst snd]. apply andb_true_iff in Hv as [Hn _].
    rewrite no_line_break_app, (no_line_break_key k' Hk), no_line_break_cons, Hn.
    reflexivity.
  - exact (env_line_entry_plain k' v Hk Hv).
Qed.

Lemma parse_env_file_plain_round_trip_witness :
  Forall (fun kv => env_key_ok kv.1 = true /\ plain_value_ok kv.2 = true)
    [("PORT", "8080"); ("URL", "http://h/x?a=b#c"); ("PORT", "90")] /\
  parse_env_file (Some (env_text plain_line
    [("PORT", "8080"); ("URL", "http://h/x?a=b#c"); ("PORT", "90")])) !! "URL" =
  lookup_last "URL" [("PORT", "8080"); ("URL", "http://h/x?a=b#c"); ("PORT", "90")].
Proof.
  assert (H : Forall (fun kv => env_key_ok kv.1 = true /\ plain_value_ok kv.2 = true)
    [("PORT", "8080"); ("URL", "http://h/x?a=b#c"); ("PORT", "90")]) by (repeat constructor).
  split; [exact H | exact (parse_env_file_plain_round_trip _ "URL" H)].
Defined.

(** [run_checks] reads no key but the sixteen aliases: two environments
    that agree on them give the same outcome. *)
Theorem run_checks_reads_only_aliases (env1 env2 : gmap string string) :
  (forall k, In k (concat alias_lists) -> env1 !! k = env2 !! k) ->
  run_checks env1 = run_checks env2.
Proof. exact (run_checks_ext env1 env2). Qed.

Lemma run_checks_reads_only_aliases_witness :
  run_checks prio_env = run_checks (<["PATH" := "/bin"]> prio_env).
Proof.
  apply run_checks_reads_only_aliases. intros k Hk.
  rewrite lookup_insert_ne; [reflexivity|]. intros <-. vm_compute in Hk.
  intuition discriminate.
Defined.

(** The auto-evaluate setting is informational: changing only its aliases
    leaves the first four results, every name and pass/fail flag, and the
    errors unchanged (it shows up only in the monitoring detail). *)
Theorem auto_evaluate_only_in_detail (env1 env2 : gmap string string) :
  (forall k, ~ In k monitoring_auto_evaluate_keys -> env1 !! k = env2 !! k) ->
  match run_checks env1, run_checks env2 with
  | Ok (rs1, es1), Ok (rs2, es2) =>
      firstn 4 rs1 = firstn 4 rs2 /\ map name rs1 = map name rs2 /\
      map ok rs1 = map ok rs2 /\ es1 = es2
  | Raise e1, Raise e2 => e1 = e2
  | _, _ => False
  end.
Proof.
  intros H.
  assert (P : forall keys d,
    In keys [expert_mode_keys; info_mode_keys; expert_key_keys; expert_endpoint_keys;
             info_key_keys; info_endpoint_keys; monitoring_poll_keys] ->
    pick env1 keys d = pick env2 keys d).
  { intros keys d Hk. apply pick_ext. intros k Hin. apply H. intros Ha.
    cbn in Hk, Ha. repeat destruct Hk as [<-|Hk]; try contradiction;
    cbn in Hin; intuition congruence. }
  assert (Hpoll : monitoring_poll_of env1 = monitoring_poll_of env2).
  { unfold monitoring_poll_of. rewrite (P monitoring_poll_keys) by (cbn; tauto).
    reflexivity. }
  rewrite !run_checks_unfold. unfold resolve_mode. cbv zeta.
  rewrite !(P expert_mode_keys), !(P info_mode_keys), !(P expert_key_keys),
    !(P expert_endpoint_keys), !(P info_key_keys), !(P info_endpoint_keys)
    by (cbn; tauto).
  rewrite Hpoll.
  destruct (cred_check _ _ _ "expert.live_credentials" _) as [c1|e1];
    cbn [mbind res_bind]; [|reflexivity].
  destruct (cred_check _ _ _ "info.live_credentials" _) as [c2|e2];
    cbn [mbind res_bind mret res_ret]; [|reflexivity].
  unfold monitoring_result. cbn [firstn map name ok mk_result]. rewrite Hpoll.
  repeat split.
Qed.

Lemma auto_evaluate_only_in_detail_witness :
  match run_checks ∅, run_checks (<["FIN_MONITORING_AUTO_EVALUATE" := "off"]> ∅) with
  | Ok (rs1, es1), Ok (rs2, es2) =>
      firstn 4 rs1 = firstn 4 rs2 /\ map name rs1 = map name rs2 /\
      map ok rs1 = map ok rs2 /\ es1 = es2
  | Raise e1, Raise e2 => e1 = e2
  | _, _ => False
  end.
Proof.
  apply auto_evaluate_only_in_detail. intros k Hk.
  rewrite lookup_insert_ne; [reflexivity|]. intros <-. apply Hk. cbn. tauto.
Defined.

(** [run_checks] raises exactly when a live mode has a non-empty API key
    and a non-empty endpoint on which [valid_url] raises. *)
Theorem run_checks_raises_iff (env : gmap string string) :
  run_checks env = Raise ValueError <->
  (resolve_mode env expert_mode_keys = "live" /\
   truthy_opt (pick env expert_key_keys None) = true /\
   exists ep, pick env expert_endpoint_keys None = Some ep /\ ep <> "" /\
              valid_url ep = Raise ValueError) \/
  (resolve_mode env info_mode_keys = "live" /\
   truthy_opt (pick env info_key_keys None) = true /\
   exists ep, pick env info_endpoint_keys None = Some ep /\ ep <> "" /\
              valid_url ep = Raise ValueError).
Proof. rewrite run_checks_raise, !cred_check_raise, !live_ok_raise. reflexivity. Qed.

(** [valid_url] never raises on a string of code points 0..255 without
    square brackets. *)
Theorem valid_url_total_without_brackets (s : string) :
  str_contains "[" s = false -> str_contains "]" s = false ->
  exists b, valid_url s = Ok b.
Proof. intros Ho Hc. eexists. exact (valid_url_ok_no_brackets s Ho Hc). Qed.

Lemma valid_url_total_without_brackets_witness :
  exists b, valid_url "https://api.example.com/v1?x=1" = Ok b.
Proof. apply valid_url_total_without_brackets; reflexivity. Defined.

(** [run_checks] returns normally when no endpoint alias holds a square
    bracket (values of code points 0..255). *)
Theorem run_checks_returns_without_brackets (env : gmap string string) :
  (forall k v, In k (app expert_endpoint_keys info_endpoint_keys) -> env !! k = Some v ->
     str_contains "[" v = false /\ str_contains "]" v = false) ->
  exists rs es, run_checks env = Ok (rs, es).
Proof.
  intros H.
  assert (Hep : forall keys,
    (forall k, In k keys -> In k (app expert_endpoint_keys info_endpoint_keys)) ->
    forall ep, pick env keys None = Some ep -> valid_url ep <> Raise ValueError).
  { intros keys Hk ep Hp. apply pick_In in Hp as [Hd|(k & raw & Hin & Hraw & ->)];
      [discriminate|].
    destruct (H k raw (Hk k Hin) Hraw) as [H1 H2].
    rewrite (valid_url_ok_no_brackets (py_strip raw)
      (not_contains_sub _ _ _ (In_strip_by _ raw) H1)
      (not_contains_sub _ _ _ (In_strip_by _ raw) H2)).
    discriminate. }
  destruct (run_checks env) as [[rs es]|[|]] eqn:E; [eauto| |exfalso; exact (run_checks_value _ E)].
  exfalso. apply run_checks_raise in E as [E|E];
    apply cred_check_raise in E as [_ E];
    apply live_ok_raise in E as (_ & ep & Hp & _ & Hv).
  - apply (Hep expert_endpoint_keys) with ep; [|exact Hp|exact Hv].
    intros k Hk. apply in_or_app. now left.
  - apply (Hep info_endpoint_keys) with ep; [|exact Hp|exact Hv].
    intros k Hk. apply in_or_app. now right.
Qed.

Lemma run_checks_returns_without_brackets_witness :
  exists rs es, run_checks notaurl_env = Ok (rs, es).
Proof.
  apply run_checks_returns_without_brackets. intros k v Hk Hv.
  cbn in Hk. repeat destruct Hk as [<-|Hk]; try contradiction;
    vm_compute in Hv; try discriminate.
  injection Hv as <-. split; reflexivity.
Defined.



(** The process environment wins over the env file: when it sets every
    alias, the contents of an env file that reads without error change
    nothing in what [main] prints or returns. *)
Theorem main_environ_overrides_file (args : Args) (t1 t2 : string)
    (environ : gmap string string) :
  (forall k, In k (concat alias_lists) -> is_Some (environ !! k)) ->
  main args (Some (Ok t1)) environ = main args (Some (Ok t2)) environ.
Proof.
  intros H. unfold main, load_env_file. cbn [mbind res_bind mret res_ret].
  rewrite (run_checks_ext (environ ∪ parse_env_file (Some t1))
                          (environ ∪ parse_env_file (Some t2))); [reflexivity|].
  intros k Hk. rewrite !lookup_union_l' by (apply H; exact Hk). reflexivity.
Qed.

Lemma main_environ_overrides_file_witness :
  main {| env_file := ".env.finance"; strict_file := true |}
    (Some (Ok "FIN_EXPERT_SDK_MODE=bad")) all_aliases_env =
  main {| env_file := ".env.finance"; strict_file := true |}
    (Some (Ok "")) all_aliases_env.
Proof.
  apply main_environ_overrides_file. intros k Hk.
  cbn in Hk. repeat (destruct Hk as [<-|Hk]; [vm_compute; eexists; reflexivity|]).
  contradiction.
Defined.

(** ** [parse_int] *)

Lemma int_digits_digit (c : ascii) (r : string) (acc : Z) (n : N) :
  is_digit c = true ->
  int_digits (String c r) acc n = int_digits r (acc * 10 + digit_val c) (n + 1).
Proof. intros H. cbn [int_digits]. rewrite H. reflexivity. Qed.

Ltac int_digits_step IH :=
  rewrite int_digits_digit by reflexivity;
  cbn [Pos.of_uint_acc Decimal.nb_digits];
  match goal with
  | |- context [digit_val ?c] =>
      let v := eval vm_compute in (digit_val c) in
      change (digit_val c) with v
  end;
  match goal with
  | |- int_digits _ ?a _ = Some (Zpos (Pos.of_uint_acc _ ?b), _) =>
      replace a with (Zpos b) by lia
  end;
  rewrite IH, Nat2N.inj_succ; do 2 f_equal; lia.

Lemma int_digits_uint_acc (d : Decimal.uint) (acc : positive) (n : N) :
  int_digits (NilEmpty.string_of_uint d) (Zpos acc) n =
  Some (Zpos (Pos.of_uint_acc d acc), (n + N.of_nat (Decimal.nb_digits d))%N).
Proof.
  revert acc n.
  induction d as [|d IH|d IH|d IH|d IH|d IH|d IH|d IH|d IH|d IH|d IH];
    intros acc n; cbn [NilEmpty.string_of_uint];
    [cbn [int_digits Pos.of_uint_acc Decimal.nb_digits N.of_nat]; rewrite N.add_0_r; reflexivity | int_digits_step IH ..].
Qed.

Lemma int_digits_uint_zero (d : Decimal.uint) (n : N) :
  int_digits (NilEmpty.string_of_uint d) 0 n =
  Some (Z.of_N (Pos.of_uint d), (n + N.of_nat (Decimal.nb_digits d))%N).
Proof.
  revert n.
  induction d as [|d IH|d IH|d IH|d IH|d IH|d IH|d IH|d IH|d IH|d IH];
    intros n; cbn [NilEmpty.string_of_uint].
  1: cbn [int_digits Pos.of_uint Decimal.nb_digits N.of_nat];
    rewrite N.add_0_r; reflexivity.
  1: rewrite int_digits_digit by reflexivity;
    match goal with |- int_digits _ ?a _ = _ => change a with 0%Z end;
    rewrite IH; cbn [Pos.of_uint Decimal.nb_digits];
    rewrite Nat2N.inj_succ; do 2 f_equal; lia.
  all: rewrite int_digits_digit by reflexivity;
    cbn [Pos.of_uint Decimal.nb_digits Z.of_N];
    match goal with
    | |- int_digits _ ?a _ = Some (Zpos (Pos.of_uint_acc _ ?b), _) =>
        change a with (Zpos b)
    end;
    rewrite int_digits_uint_acc, Nat2N.inj_succ; do 2 f_equal; lia.
Qed.

Lemma string_of_uint_digits (d : Decimal.uint) :
  str_all is_digit (NilEmpty.string_of_uint d) = true.
Proof.
  unfold str_all.
  induction d as [|d IH|d IH|d IH|d IH|d IH|d IH|d IH|d IH|d IH|d IH];
    cbn [NilEmpty.string_of_uint list_ascii_of_string forallb];
    [reflexivity | rewrite IH; reflexivity ..].
Qed.

Lemma int_unsigned_digits (c : ascii) (r : string) :
  is_digit c = true ->
  int_unsigned (String c r) =
  match int_digits (String c r) 0 0 with
  | Some (v, n) => if (n <=? int_max_str_digits)%N then Some v else None
  | None => None
  end.
Proof.
  intros H. rewrite int_digits_digit by exact H.
  cbn [int_unsigned]. rewrite H. reflexivity.
Qed.

Lemma int_unsigned_uint (d : Decimal.uint) :
  d <> Decimal.Nil -> (Decimal.nb_digits d <= 4300)%nat ->
  int_unsigned (NilEmpty.string_of_uint d) = Some (Z.of_N (Pos.of_uint d)).
Proof.
  intros Hd Hn.
  pose proof (string_of_uint_digits d) as Hdig.
  pose proof (int_digits_uint_zero d 0) as Hz.
  destruct (NilEmpty.string_of_uint d) as [|c r] eqn:E.
  { destruct d; [congruence | discriminate ..]. }
  unfold str_all in Hdig. cbn [list_ascii_of_string forallb] in Hdig.
  apply andb_prop in Hdig as [Hc _].
  rewrite int_unsigned_digits by exact Hc. rewrite Hz.
  replace ((0 + N.of_nat (Decimal.nb_digits d) <=? int_max_str_digits)%N)
    with true; [reflexivity |].
  symmetry. apply N.leb_le. unfold int_max_str_digits. lia.
Qed.

Lemma of_uint_acc_lower (d : Decimal.uint) (acc : positive) :
  (Zpos acc * 10 ^ Z.of_nat (Decimal.nb_digits d) <= Zpos (Pos.of_uint_acc d acc))%Z.
Proof.
  revert acc.
  induction d as [|d IH|d IH|d IH|d IH|d IH|d IH|d IH|d IH|d IH|d IH];
    intros acc; cbn [Pos.of_uint_acc Decimal.nb_digits].
  1: cbn; lia.
  all: match goal with
       | |- (_ <= Zpos (Pos.of_uint_acc _ ?b))%Z => pose proof (IH b)
       end;
    pose proof (Z.pow_nonneg 10 (Z.of_nat (Decimal.nb_digits d)) ltac:(lia));
    rewrite Nat2Z.inj_succ, Z.pow_succ_r by lia; nia.
Qed.

Lemma to_uint_lower (p : positive) :
  (10 ^ (Z.of_nat (Decimal.nb_digits (Pos.to_uint p)) - 1) <= Zpos p)%Z.
Proof.
  pose proof (DecimalPos.Unsigned.of_to p) as Hof.
  pose proof (DecimalPos.Unsigned.to_of (Pos.to_uint p)) as Hto.
  pose proof (DecimalPos.Unsigned.to_uint_nonzero p) as Hz.
  rewrite Hof in Hto. change (N.to_uint (Npos p)) with (Pos.to_uint p) in Hto.
  destruct (Pos.to_uint p) as [|l|l|l|l|l|l|l|l|l|l] eqn:E.
  1: cbn; lia.
  1: rewrite DecimalFacts.unorm_D0 in Hto;
    destruct (Decimal.uint_eq_dec l Decimal.Nil) as [->|Hl];
    [exfalso; apply Hz; reflexivity |];
    pose proof (DecimalFacts.nb_digits_unorm l Hl) as Hnb;
    rewrite <- Hto in Hnb; cbn [Decimal.nb_digits] in Hnb; lia.
  all: cbn [Pos.of_uint] in Hof; injection Hof as <-;
    match goal with
    | |- (_ <= Zpos (Pos.of_uint_acc _ ?b))%Z => pose proof (of_uint_acc_lower l b)
    end;
    cbn [Decimal.nb_digits]; rewrite Nat2Z.inj_succ, Z.sub_1_r, Z.pred_succ; lia.
Qed.

Lemma to_uint_nb_digits (p : positive) (e : Z) :
  (0 <= e)%Z -> (Zpos p < 10 ^ e)%Z ->
  (Z.of_nat (Decimal.nb_digits (Pos.to_uint p)) <= e)%Z.
Proof.
  intros He H. pose proof (to_uint_lower p) as Hl.
  destruct (Z.le_gt_cases (Z.of_nat (Decimal.nb_digits (Pos.to_uint p))) e) as [|Hg];
    [assumption | exfalso].
  assert (10 ^ e <= 10 ^ (Z.of_nat (Decimal.nb_digits (Pos.to_uint p)) - 1))%Z
    by (apply Z.pow_le_mono_r; lia).
  lia.
Qed.

Lemma digit_not_space (c : ascii) : is_digit c = true -> py_isspace c = false.
Proof.
  intros H. destruct c as [[] [] [] [] [] [] [] []];
    first [reflexivity | vm_compute in H; discriminate H].
Qed.

Lemma py_strip_uint (d : Decimal.uint) :
  py_strip (NilEmpty.string_of_uint d) = NilEmpty.string_of_uint d.
Proof.
  apply strip_by_none. intros c Hc. apply digit_not_space.
  exact (proj1 (str_all_In _ _) (string_of_uint_digits d) c Hc).
Qed.

Lemma py_strip_neg_uint (d : Decimal.uint) :
  py_strip (String "-" (NilEmpty.string_of_uint d)) =
  String "-" (NilEmpty.string_of_uint d).
Proof.
  apply strip_by_none. intros c [<-|Hc]; [reflexivity |]. apply digit_not_space.
  exact (proj1 (str_all_In _ _) (string_of_uint_digits d) c Hc).
Qed.

Lemma py_int_uint (d : Decimal.uint) :
  d <> Decimal.Nil ->
  py_int (NilEmpty.string_of_uint d) = int_unsigned (NilEmpty.string_of_uint d).
Proof.
  intros Hd. unfold py_int. rewrite py_strip_uint.
  destruct d; [congruence | reflexivity ..].
Qed.

(** [parse_int] reads back what [str(n)] prints, for every [n] whose
    decimal form has at most 4300 digits (beyond that CPython's [str]
    itself refuses the conversion). *)
Theorem parse_int_str_round_trip (n default : Z) :
  (Z.abs n < 10 ^ 4300)%Z ->
  parse_int (Some (py_str_int n)) default = n.
Proof.
  intros Hn. unfold parse_int, py_str_int.
  destruct n as [|p|p]; [reflexivity | |].
  - cbn [Z.to_int NilEmpty.string_of_int].
    rewrite py_strip_uint, py_int_uint by apply DecimalPos.Unsigned.to_uint_nonnil.
    rewrite int_unsigned_uint, DecimalPos.Unsigned.of_to;
      [reflexivity | apply DecimalPos.Unsigned.to_uint_nonnil |].
    pose proof (to_uint_nb_digits p 4300 ltac:(discriminate) Hn). lia.
  - cbn [Z.to_int NilEmpty.string_of_int].
    rewrite py_strip_neg_uint. unfold py_int. rewrite py_strip_neg_uint.
    change (from_option id default
      (option_map Z.opp (int_unsigned (NilEmpty.string_of_uint (Pos.to_uint p))))
      = Zneg p).
    rewrite int_unsigned_uint, DecimalPos.Unsigned.of_to;
      [reflexivity | apply DecimalPos.Unsigned.to_uint_nonnil |].
    pose proof (to_uint_nb_digits p 4300 ltac:(discriminate) Hn). lia.
Qed.

Lemma parse_int_str_round_trip_witness :
  (Z.abs (-42) < 10 ^ 4300)%Z /\ parse_int (Some (py_str_int (-42))) 300000 = (-42)%Z.
Proof.
  assert (H : (Z.abs (-42) < 10 ^ 4300)%Z).
  { apply (Z.lt_le_trans _ (10 ^ 2)); [reflexivity |].
    apply Z.pow_le_mono_r; [reflexivity | discriminate]. }
  split; [exact H | exact (parse_int_str_round_trip (-42) 300000 H)].
Defined.
